(** * settrade-bot: the event classes of [app/event.py]

    A shallow embedding of the four event classes ([MarketEvent],
    [SignalEvent], [OrderEvent], [FillEvent]) and of the Interactive
    Brokers fee computation, followed by the properties the
    specification states about them.

    Modelling decisions, all read off the source:

    - Python values are dynamically typed; the embedding covers [None],
      [int] (unbounded, [Z]), [float] (IEEE-754 binary64, as the
      axiom-free [spec_float] of the standard library with [prec = 53]
      and [emax = 1024]) and [str].
    - An instance is its class together with its attribute dictionary
      ([gmap string pyval]); [self.x = v] inserts, [self.x] looks up and
      raises [AttributeError] when the name is bound neither in the
      instance nor in its class.
    - Methods run in a state-and-error monad over the receiver and the
      text written to standard output.
    - The parameter list of [FillEvent.__init__] lacks the comma between
      [direction] and [fill_cost]; the body assigns both, so the
      embedding reads them as two parameters. *)

From Stdlib Require Import ZArith Lia List Bool Ascii String.
From Stdlib Require Import Floats.SpecFloat.
From Stdlib Require Import DecimalString.
From stdpp Require Import base option gmap strings.

Local Open Scope Z_scope.

(** ** Binary64 floats *)

Module Float.

Definition prec : Z := 53.
Definition emax : Z := 1024.

Definition mul : spec_float -> spec_float -> spec_float := SFmul prec emax.
Definition ltb : spec_float -> spec_float -> bool := SFltb.
Definition leb : spec_float -> spec_float -> bool := SFleb.

(** Correctly rounded (ties to even) conversion of an integer; an
    integer beyond the largest double rounds to an infinity. *)
Definition of_Z (z : Z) : spec_float := binary_normalize prec emax z 0 false.

Definition is_infinity (f : spec_float) : bool :=
  match f with S754_infinity _ => true | _ => false end.

(** [nearest num den f]: [f] is a positive normal double whose distance
    to the rational [num/den] is at most half a unit in the last place,
    that is, [f] is what the literal [num/den] denotes. *)
Definition nearest (num den : Z) (f : spec_float) : bool :=
  match f with
  | S754_finite false m e =>
      (2 ^ 52 <=? Z.pos m) && (Z.pos m <? 2 ^ 53) && (e <=? 0) && (0 <? den)
      && (2 * Z.abs (Z.pos m * den - num * 2 ^ (- e)) <=? den)
  | _ => false
  end.

(** The literals of the source and of the specification's examples. *)
Definition lit_1_3   : spec_float := S754_finite false 5854679515581645 (-52).
Definition lit_0_013 : spec_float := S754_finite false 7493989779944505 (-59).
Definition lit_0_008 : spec_float := S754_finite false 4611686018427388 (-59).
Definition lit_6_5   : spec_float := S754_finite false 7318349394477056 (-50).
Definition lit_8_0   : spec_float := S754_finite false 4503599627370496 (-49).
Definition lit_800_0 : spec_float := S754_finite false 7036874417766400 (-43).
Definition lit_4_008 : spec_float := S754_finite false 4512606826625237 (-50).
Definition lit_2_5   : spec_float := S754_finite false 5629499534213120 (-51).
Definition lit_1500_0 : spec_float := S754_finite false 6597069766656000 (-42).

End Float.

(** ** Values, exceptions, results *)

Inductive pyval : Type :=
  | VNone
  | VInt (z : Z)
  | VFloat (f : spec_float)
  | VStr (s : string).

(** The exceptions the modelled code can raise. [ValidationError] is the
    error the specification names; no statement of the source raises
    it. *)
Inductive exn : Type :=
  | TypeError
  | AttributeError
  | OverflowError
  | ValueError
  | IndexError
  | ValidationError.

Inductive result (A : Type) : Type :=
  | Ok (a : A)
  | Raise (e : exn).
Arguments Ok {A} a.
Arguments Raise {A} e.

#[global] Instance result_ret : MRet result := fun _ a => Ok a.
#[global] Instance result_bind : MBind result := fun _ _ k r =>
  match r with
  | Ok a => k a
  | Raise e => Raise e
  end.

#[global] Instance result_fmap : FMap result := fun _ _ f r =>
  match r with
  | Ok a => Ok (f a)
  | Raise e => Raise e
  end.

(** ** Operators on values, as the interpreter dispatches them *)

(** [int -> float], as a float operand forces it: the conversion rounds
    to nearest and raises [OverflowError] ("int too large to convert to
    float") instead of producing an infinity. *)
Definition float_of_int (z : Z) : result spec_float :=
  let f := Float.of_Z z in
  if Float.is_infinity f then Raise OverflowError else Ok f.

(** [x <= n] for an [int] literal [n] that a double holds exactly (here
    500): integers compare exactly, a float compares with the converted
    literal, [None] and [str] are unorderable with [int]. *)
Definition le_int (x : pyval) (n : Z) : result bool :=
  match x with
  | VInt z => Ok (z <=? n)
  | VFloat f => Ok (Float.leb f (Float.of_Z n))
  | VNone | VStr _ => Raise TypeError
  end.

(** [c * x] for a float literal [c]. *)
Definition float_mul (c : spec_float) (x : pyval) : result spec_float :=
  match x with
  | VInt z => f ← float_of_int z; Ok (Float.mul c f)
  | VFloat f => Ok (Float.mul c f)
  | VNone | VStr _ => Raise TypeError
  end.

(** The builtin [max(a, b)] on two floats: the first argument is kept
    unless the second compares strictly greater. *)
Definition max (a b : spec_float) : spec_float :=
  if Float.ltb a b then b else a.

(** Zero, a negative number, or not a number: what [max] never prefers
    to a positive first argument. *)
Definition not_positive (f : spec_float) : bool :=
  match f with
  | S754_zero _ | S754_nan => true
  | S754_infinity s | S754_finite s _ _ => s
  end.

(** ** Instances and the method monad *)

Inductive class : Type :=
  | CEvent
  | CMarketEvent
  | CSignalEvent
  | COrderEvent
  | CFillEvent.

Record object : Type := Object {
  obj_class : class;
  obj_dict : gmap string pyval
}.

(** What a method can read and change: its receiver and the text written
    to standard output so far. *)
Record world : Type := World {
  self : object;
  stdout : string
}.

(** A raised exception does not undo the assignments made before it, so
    the world is returned on both outcomes. *)
Definition M (A : Type) : Type := world -> result A * world.

#[global] Instance M_ret : MRet M := fun _ a w => (Ok a, w).
#[global] Instance M_bind : MBind M := fun _ _ k c w =>
  match c w with
  | (Ok a, w') => k a w'
  | (Raise e, w') => (Raise e, w')
  end.

Definition lift {A} (r : result A) : M A := fun w => (r, w).

(** [self.name = v] *)
Definition setattr (name : string) (v : pyval) : M unit := fun w =>
  (Ok tt,
   World (Object (obj_class (self w)) (<[name := v]> (obj_dict (self w))))
         (stdout w)).

(** [self.name] for a data attribute. *)
Definition getattr (name : string) : M pyval := fun w =>
  match obj_dict (self w) !! name with
  | Some v => (Ok v, w)
  | None => (Raise AttributeError, w)
  end.

(** [self.name()] against the method table of the receiver's class: the
    instance dictionary shadows the class; a data attribute found there
    is one of the values above, none of which is callable. *)
Definition call_method (methods : string -> option (M pyval)) (name : string)
  : M pyval := fun w =>
  match obj_dict (self w) !! name with
  | Some _ => (Raise TypeError, w)
  | None =>
      match methods name with
      | Some m => m w
      | None => (Raise AttributeError, w)
      end
  end.

(** [print(s)]: the text and a newline go to standard output. *)
Definition newline : string := String "010"%char EmptyString.

Definition print (s : string) : M unit := fun w =>
  (Ok tt, World (self w) (stdout w +:+ s +:+ newline)).

(** ** Argument binding of a call *)

(** A parameter with its default, if it has one. *)
Abbreviation params := (list (string * option pyval)).

Fixpoint bind_positional (ps : params) (args : list pyval)
  : result (gmap string pyval) :=
  match args, ps with
  | [], _ => Ok ∅
  | _ :: _, [] => Raise TypeError
  | a :: args', (p, _) :: ps' =>
      m ← bind_positional ps' args'; Ok (<[p := a]> m)
  end.

Fixpoint bind_keywords (ps : params) (kwargs : list (string * pyval))
    (m : gmap string pyval) : result (gmap string pyval) :=
  match kwargs with
  | [] => Ok m
  | (k, v) :: kwargs' =>
      if bool_decide (k ∈ ps.*1) then
        match m !! k with
        | Some _ => Raise TypeError
        | None => bind_keywords ps kwargs' (<[k := v]> m)
        end
      else Raise TypeError
  end.

Fixpoint bind_defaults (ps : params) (m : gmap string pyval)
  : result (gmap string pyval) :=
  match ps with
  | [] => Ok m
  | (p, d) :: ps' =>
      match m !! p, d with
      | Some _, _ => bind_defaults ps' m
      | None, Some v => bind_defaults ps' (<[p := v]> m)
      | None, None => Raise TypeError
      end
  end.

(** Positional arguments fill the parameters from the left, keywords
    fill the rest by name, defaults fill what is still unbound; an
    argument too many, an unknown or repeated name, or a parameter left
    without a value is a [TypeError]. *)
Definition bind_args (ps : params) (args : list pyval)
    (kwargs : list (string * pyval)) : result (gmap string pyval) :=
  m ← bind_positional ps args;
  m ← bind_keywords ps kwargs m;
  bind_defaults ps m.

Definition local (m : gmap string pyval) (name : string) : pyval :=
  default VNone (m !! name).

(** ** String formatting *)

(** [repr] of a float (the shortest decimal text that reads back as the
    same double) is the interpreter's; the development is parametric in
    it. *)
Class FloatRepr : Type := float_repr : spec_float -> string.

(** [format(v, spec)] with the empty format specification, which is
    [str(v)] for the values modelled. The decimal text of an [int] is
    total, as the language defines it; the length limit some
    interpreters place on that conversion is a setting of theirs and is
    not modelled. *)
Definition format_value `{!FloatRepr} (v : pyval) : string :=
  match v with
  | VNone => "None"
  | VInt z => NilZero.string_of_int (Z.to_int z)
  | VFloat f => float_repr f
  | VStr s => s
  end.

(** [template.format] on positional arguments, for templates whose
    replacement fields are the automatically numbered [{}] and [{:}],
    with [{{] and [}}] for literal braces; a field without an argument
    is an [IndexError], any other brace a [ValueError], surplus
    arguments are ignored. *)
Fixpoint str_format `{!FloatRepr} (template : string) (args : list pyval)
  : result string :=
  match template with
  | EmptyString => Ok EmptyString
  | String "{" (String ":" (String "}" rest))
  | String "{" (String "}" rest) =>
      match args with
      | [] => Raise IndexError
      | a :: args' =>
          r ← str_format rest args'; Ok (format_value a +:+ r)
      end
  | String "{" (String "{" rest) =>
      r ← str_format rest args; Ok (String "{" r)
  | String "}" (String "}" rest) =>
      r ← str_format rest args; Ok (String "}" r)
  | String "{" _ | String "}" _ => Raise ValueError
  | String c rest =>
      r ← str_format rest args; Ok (String c r)
  end.

(** ** The classes *)

Module Event.
(** [class Event(object): pass] — the initialiser is [object]'s, which
    takes no argument. *)
Definition parameters : params := [].
Definition __init__ : M unit := mret tt.
Definition methods (name : string) : option (M pyval) := None.
End Event.

Module MarketEvent.
Definition parameters : params := [].

Definition __init__ : M unit :=
  setattr "type" (VStr "MARKET").

Definition methods (name : string) : option (M pyval) := None.
End MarketEvent.

Module SignalEvent.
Definition parameters : params :=
  [("strategy_id", None); ("symbol", None); ("datetime", None);
   ("signal_type", None); ("strength", None)].

Definition __init__ (strategy_id symbol datetime signal_type strength : pyval)
  : M unit :=
  setattr "type" (VStr "SIGNAL");;
  setattr "strategy_id" strategy_id;;
  setattr "symbol" symbol;;
  setattr "datetime" datetime;;
  setattr "signal_type" signal_type;;
  setattr "strength" strength.

Definition methods (name : string) : option (M pyval) := None.
End SignalEvent.

Module OrderEvent.
Definition parameters : params :=
  [("symbol", None); ("order_type", None); ("quantity", None);
   ("direction", None)].

Definition __init__ (symbol order_type quantity direction : pyval) : M unit :=
  setattr "type" (VStr "ORDER");;
  setattr "symbol" symbol;;
  setattr "order_type" order_type;;
  setattr "quantity" quantity;;
  setattr "direction" direction.

Definition template : string :=
  "Order: Symbol={:}, Type={:}, Quantity={:}, Direction={:}".

Definition print_order `{!FloatRepr} : M pyval :=
  symbol ← getattr "symbol";
  order_type ← getattr "order_type";
  quantity ← getattr "quantity";
  direction ← getattr "direction";
  text ← lift (str_format template [symbol; order_type; quantity; direction]);
  print text;;
  mret VNone.

Definition methods `{!FloatRepr} (name : string) : option (M pyval) :=
  if decide (name = "print_order") then Some print_order else None.
End OrderEvent.

Module FillEvent.
Definition parameters : params :=
  [("timeindex", None); ("symbol", None); ("exchange", None);
   ("quantity", None); ("direction", None); ("fill_cost", None);
   ("commission", Some VNone)].

Definition calculate_ib_commision : M pyval :=
  let full_cost := Float.lit_1_3 in
  quantity ← getattr "quantity";
  small ← lift (le_int quantity 500);
  if small : bool then
    quantity ← getattr "quantity";
    fee ← lift (float_mul Float.lit_0_013 quantity);
    let full_cost := max Float.lit_1_3 fee in
    mret (VFloat full_cost)
  else
    quantity ← getattr "quantity";
    fee ← lift (float_mul Float.lit_0_008 quantity);
    let full_cost := max Float.lit_1_3 fee in
    mret (VFloat full_cost).

(** The class defines [calculate_ib_commision] (one [s]) and nothing
    else that a call could reach. *)
Definition methods (name : string) : option (M pyval) :=
  if decide (name = "calculate_ib_commision")
  then Some calculate_ib_commision else None.

Definition __init__
    (timeindex symbol exchange quantity direction fill_cost commission : pyval)
  : M unit :=
  setattr "type" (VStr "FILL");;
  setattr "timeindex" timeindex;;
  setattr "symbol" symbol;;
  setattr "exchange" exchange;;
  setattr "quantity" quantity;;
  setattr "direction" direction;;
  setattr "fill_cost" fill_cost;;
  match commission with
  | VNone =>
      c ← call_method methods "calculate_ib_commission";
      setattr "commission" c
  | _ => setattr "commission" commission
  end.
End FillEvent.

(** ** Calls *)

Definition parameters_of (c : class) : params :=
  match c with
  | CEvent => Event.parameters
  | CMarketEvent => MarketEvent.parameters
  | CSignalEvent => SignalEvent.parameters
  | COrderEvent => OrderEvent.parameters
  | CFillEvent => FillEvent.parameters
  end.

(** The body of the class's [__init__] on its bound arguments. *)
Definition init_body (c : class) (l : gmap string pyval) : M unit :=
  match c with
  | CEvent => Event.__init__
  | CMarketEvent => MarketEvent.__init__
  | CSignalEvent =>
      SignalEvent.__init__ (local l "strategy_id") (local l "symbol")
        (local l "datetime") (local l "signal_type") (local l "strength")
  | COrderEvent =>
      OrderEvent.__init__ (local l "symbol") (local l "order_type")
        (local l "quantity") (local l "direction")
  | CFillEvent =>
      FillEvent.__init__ (local l "timeindex") (local l "symbol")
        (local l "exchange") (local l "quantity") (local l "direction")
        (local l "fill_cost") (local l "commission")
  end.

(** A call of [self.__init__] with positional and keyword arguments. *)
Definition call_init (c : class) (args : list pyval)
    (kwargs : list (string * pyval)) : M unit :=
  l ← lift (bind_args (parameters_of c) args kwargs);
  init_body c l.

(** A call of the class [c]: a fresh instance with an empty dictionary is
    initialised and returned; when the initialiser raises, the instance
    is dropped. *)
Definition new (c : class) (args : list pyval) (kwargs : list (string * pyval))
    (out : string) : result object * string :=
  match call_init c args kwargs (World (Object c ∅) out) with
  | (Ok _, w) => (Ok (self w), stdout w)
  | (Raise e, w) => (Raise e, stdout w)
  end.

Definition methods_of `{!FloatRepr} (c : class) : string -> option (M pyval) :=
  match c with
  | CEvent => Event.methods
  | CMarketEvent => MarketEvent.methods
  | CSignalEvent => SignalEvent.methods
  | COrderEvent => OrderEvent.methods
  | CFillEvent => FillEvent.methods
  end.

(** What the source lets client code invoke on an instance it holds:
    the initialiser again, or a method by name. *)
Inductive operation : Type :=
  | Reinit (args : list pyval) (kwargs : list (string * pyval))
  | Invoke (name : string).

Definition perform `{!FloatRepr} (op : operation) : M pyval := fun w =>
  match op with
  | Reinit args kwargs =>
      (call_init (obj_class (self w)) args kwargs ≫= λ _, mret VNone) w
  | Invoke name => call_method (methods_of (obj_class (self w))) name w
  end.

Fixpoint perform_all `{!FloatRepr} (ops : list operation) (w : world) : world :=
  match ops with
  | [] => w
  | op :: ops' => perform_all ops' (perform op w).2
  end.

(** The discriminant each concrete class assigns to [self.type]; the
    base class assigns none. *)
Definition kind_of (c : class) : option string :=
  match c with
  | CEvent => None
  | CMarketEvent => Some "MARKET"
  | CSignalEvent => Some "SIGNAL"
  | COrderEvent => Some "ORDER"
  | CFillEvent => Some "FILL"
  end.


(** [attr o name]: the value of [o.name], if the instance has it. *)
Definition attr (o : object) (name : string) : option pyval :=
  obj_dict o !! name.

(** The receiver of a [calculate_ib_commision] call holds [v] as its
    quantity. *)
Definition quantity_is (w : world) (v : pyval) : Prop :=
  attr (self w) "quantity" = Some v.

(** A fill whose only attribute is its quantity: the least receiver
    [calculate_ib_commision] runs on. *)
Definition fill_of_quantity (q : Z) : world :=
  World (Object CFillEvent {[ "quantity" := VInt q ]}) "".

(** A call leaves a required parameter without a value: the parameter
    at position [i] has no default, fewer than [i + 1] positional
    arguments are passed and no keyword names it. *)
Definition misses_required (c : class) (args : list pyval)
    (kwargs : list (string * pyval)) : Prop :=
  ∃ (i : nat) (name : string),
    parameters_of c !! i = Some (name, None)
    ∧ (length args ≤ i)%nat
    ∧ name ∉ kwargs.*1.

(** The instance [OrderEvent.__init__] leaves behind on a fresh
    object. *)
Definition order_instance (symbol order_type quantity direction : pyval)
  : object :=
  Object COrderEvent
    (<["direction" := direction]> (<["quantity" := quantity]>
    (<["order_type" := order_type]> (<["symbol" := symbol]>
    (<["type" := VStr "ORDER"]> ∅))))).

(** The line the specification gives for an order:
    Order: Symbol=<symbol>, Type=<order_type>, Quantity=<quantity>,
    Direction=<direction>. *)
Definition order_text `{!FloatRepr}
    (symbol order_type quantity direction : pyval) : string :=
  "Order: Symbol=" +:+ format_value symbol
  +:+ ", Type=" +:+ format_value order_type
  +:+ ", Quantity=" +:+ format_value quantity
  +:+ ", Direction=" +:+ format_value direction.

(** [o] is an instance of [c] whose [type] attribute is [k]. *)
Definition has_kind (c : class) (k : string) (o : object) : Prop :=
  obj_class o = c ∧ attr o "type" = Some (VStr k).

(** A rendering of floats to run [print_order] with where no float is
    printed. *)
Definition no_float_repr : FloatRepr := fun _ => "".

(** ** The specification's components *)

Module CommissionPolicy.
(** The fee table as the specification writes it:
    if quantity <= 500 then max(1.30, 0.013 * quantity)
    else max(1.30, 0.008 * quantity),
    on an integer quantity, in the arithmetic of the source. *)
Definition compute (quantity : Z) : result spec_float :=
  if quantity <=? 500 then
    x ← float_of_int quantity;
    Ok (max Float.lit_1_3 (Float.mul Float.lit_0_013 x))
  else
    x ← float_of_int quantity;
    Ok (max Float.lit_1_3 (Float.mul Float.lit_0_008 x)).
End CommissionPolicy.

Module EventQueue.
(** Modelled from the spec: the event queue, which the source does not
    contain. The queue is the sequence of pending events, oldest
    first. *)
Definition t : Type := list object.

(** Modelled from the spec: the queue before any event is pushed. *)
Definition empty : t := [].

(** Modelled from the spec: [push(event)] never fails and enqueues the
    event behind those already pending. *)
Definition push (e : object) (q : t) : t := q ++ [e].

(** Modelled from the spec: [pop() -> Event | empty-indicator] in the
    polling configuration; the oldest pending event is removed and
    returned, an empty queue answers with the empty indicator. *)
Definition pop (q : t) : option object * t :=
  match q with
  | [] => (None, [])
  | e :: q' => (Some e, q')
  end.

(** Modelled from the spec: pushing a batch of events in order. *)
Definition push_all (es : list object) (q : t) : t :=
  foldl (fun q e => push e q) q es.

(** Modelled from the spec: [n] successive polls, what each returned
    and the queue left. *)
Fixpoint pop_n (n : nat) (q : t) : list (option object) * t :=
  match n with
  | O => ([], q)
  | S n' =>
      let '(r, q') := pop q in
      let '(rs, q'') := pop_n n' q' in
      (r :: rs, q'')
  end.
End EventQueue.

(** ** Further definitions for the properties of the code *)

(** The attributes each initialiser assigns, in the order of its
    assignments. *)
Definition fields_of (c : class) : list string :=
  match c with
  | CEvent => []
  | CMarketEvent => ["type"]
  | CSignalEvent =>
      ["type"; "strategy_id"; "symbol"; "datetime"; "signal_type"; "strength"]
  | COrderEvent => ["type"; "symbol"; "order_type"; "quantity"; "direction"]
  | CFillEvent =>
      ["type"; "timeindex"; "symbol"; "exchange"; "quantity"; "direction";
       "fill_cost"; "commission"]
  end.

(** The outcome of [calculate_ib_commision] on a fill of integer
    quantity [q]. *)
Definition fee_of (q : Z) : result pyval :=
  (FillEvent.calculate_ib_commision (fill_of_quantity q)).1.

(** Structural equality of two floats. *)
Definition float_same (f g : spec_float) : bool :=
  match f, g with
  | S754_zero s, S754_zero s' => Bool.eqb s s'
  | S754_infinity s, S754_infinity s' => Bool.eqb s s'
  | S754_nan, S754_nan => true
  | S754_finite s m e, S754_finite s' m' e' =>
      Bool.eqb s s' && (m =? m')%positive && (e =? e')
  | _, _ => false
  end.

(** The fee of [q] is a float that satisfies [p]. *)
Definition fee_satisfies (p : spec_float -> bool) (q : Z) : bool :=
  match fee_of q with
  | Ok (VFloat f) => p f
  | _ => false
  end.

(** The fees of [q] and [q'] are floats, the first at most the second. *)
Definition fee_le (q q' : Z) : bool :=
  match fee_of q, fee_of q' with
  | Ok (VFloat f), Ok (VFloat f') => Float.leb f f'
  | _, _ => false
  end.

(** [n] calls of [print_order] in a row. *)
Definition print_orders (n : nat) : list operation :=
  replicate n (Invoke "print_order").

(** [n] copies of a text, one after the other. *)
Fixpoint copies (n : nat) (s : string) : string :=
  match n with
  | O => ""
  | S n' => s +:+ copies n' s
  end.

(** ** What client code can do to an instance *)

(** The classes define no [__slots__] and no [__setattr__], so every
    instance takes attribute assignment and deletion from [object]. *)











(** * Properties *)

(** Unfolds the monad and the attribute operations of a method body. *)
Ltac run :=
  unfold mbind, M_bind, mret, M_ret, setattr, getattr, lift, print,
    call_method;
  cbn [fst snd self stdout obj_class obj_dict].

(** ** Facts about binary64 rounding *)

Section Rounding.

(** Each literal is the double nearest to the decimal it is written
    as. *)
Lemma literals_nearest :
  Float.nearest 13 10 Float.lit_1_3 = true
  /\ Float.nearest 13 1000 Float.lit_0_013 = true
  /\ Float.nearest 8 1000 Float.lit_0_008 = true
  /\ Float.nearest 65 10 Float.lit_6_5 = true
  /\ Float.nearest 8 1 Float.lit_8_0 = true
  /\ Float.nearest 800 1 Float.lit_800_0 = true
  /\ Float.nearest 4008 1000 Float.lit_4_008 = true
  /\ Float.nearest 25 10 Float.lit_2_5 = true
  /\ Float.nearest 1500 1 Float.lit_1500_0 = true.
Proof. repeat split; vm_compute; reflexivity. Qed.

Lemma digits2_pos_size (p : positive) : digits2_pos p = Pos.size p.
Proof. induction p as [p IH|p IH|]; simpl; congruence. Qed.

Lemma Zdigits2_nonneg (z : Z) : 0 <= Zdigits2 z.
Proof. destruct z; simpl; lia. Qed.

Lemma Zdigits2_gt (p : positive) : Z.pos p < 2 ^ Z.pos (digits2_pos p).
Proof.
  rewrite digits2_pos_size.
  pose proof (Pos.size_gt p) as H.
  apply Pos2Z.pos_lt_pos in H. now rewrite Pos2Z.inj_pow in H.
Qed.

Lemma Zdigits2_le (z k : Z) : 0 <= k -> 0 <= z < 2 ^ k -> Zdigits2 z <= k.
Proof.
  intros Hk [Hz0 Hz]. destruct z as [|p|p]; simpl; [lia| |lia].
  rewrite digits2_pos_size.
  pose proof (Pos.size_le p) as H.
  apply Pos2Z.pos_le_pos in H. rewrite Pos2Z.inj_pow in H.
  assert (2 ^ Z.pos (Pos.size p) < 2 ^ (k + 1)) as Hlt.
  { rewrite Z.pow_add_r, Z.pow_1_r by lia. lia. }
  apply Z.pow_lt_mono_r_iff in Hlt; lia.
Qed.

Lemma digits2_pos_shift (m k : positive) :
  Z.pos (digits2_pos (Pos.iter xO m k)) = Z.pos (digits2_pos m) + Z.pos k.
Proof.
  induction k as [|k IH] using Pos.peano_ind.
  - simpl. lia.
  - rewrite Pos.iter_succ. simpl. lia.
Qed.

Lemma shr_1_digits (r : shr_record) :
  Zdigits2 (shr_m (shr_1 r)) = Z.max 0 (Zdigits2 (shr_m r) - 1).
Proof.
  destruct r as [m r s]; destruct m as [|[p|p|]|[p|p|]]; simpl; lia.
Qed.

Lemma shr_1_nonneg (r : shr_record) : 0 <= shr_m r -> 0 <= shr_m (shr_1 r).
Proof.
  destruct r as [m r s]; destruct m as [|[p|p|]|[p|p|]]; simpl; lia.
Qed.

Lemma iter_shr_1_digits (n : positive) (r : shr_record) :
  Zdigits2 (shr_m (SpecFloat.iter_pos shr_1 n r))
  = Z.max 0 (Zdigits2 (shr_m r) - Z.pos n).
Proof.
  revert r; induction n as [n IH|n IH|]; intros r; simpl.
  - rewrite !IH, shr_1_digits. lia.
  - rewrite !IH. lia.
  - apply shr_1_digits.
Qed.

Lemma iter_shr_1_nonneg (n : positive) (r : shr_record) :
  0 <= shr_m r -> 0 <= shr_m (SpecFloat.iter_pos shr_1 n r).
Proof.
  revert r; induction n as [n IH|n IH|]; intros r Hr; simpl.
  - apply IH, IH, shr_1_nonneg, Hr.
  - apply IH, IH, Hr.
  - apply shr_1_nonneg, Hr.
Qed.

Lemma shr_m_of_loc (m : Z) (l : location) : shr_m (shr_record_of_loc m l) = m.
Proof. destruct l as [|[]]; reflexivity. Qed.

(** One rounding shift keeps the mantissa non-negative, moves the
    exponent up to [fexp] of the magnitude, and does not increase the
    magnitude beyond that. *)
Lemma shr_fexp_spec (m e : Z) (l : location) :
  0 <= m ->
  let M := Zdigits2 m + e in
  let r := shr_fexp Float.prec Float.emax m e l in
  0 <= shr_m r.1
  /\ r.2 = Z.max e (fexp Float.prec Float.emax M)
  /\ Zdigits2 (shr_m r.1) + r.2 = Z.max M (fexp Float.prec Float.emax M).
Proof.
  intros Hm M r. subst r. unfold shr_fexp, shr. fold M.
  pose proof (Zdigits2_nonneg m) as HD.
  destruct (fexp Float.prec Float.emax M - e) as [|n|n] eqn:Hn; simpl.
  - rewrite shr_m_of_loc. lia.
  - rewrite iter_shr_1_digits, shr_m_of_loc.
    split; [apply iter_shr_1_nonneg; rewrite shr_m_of_loc; lia | lia].
  - rewrite shr_m_of_loc. lia.
Qed.

Lemma round_nearest_even_digits (m : Z) (l : location) :
  0 <= m ->
  0 <= round_nearest_even m l
  /\ Zdigits2 (round_nearest_even m l) <= Zdigits2 m + 1.
Proof.
  intros Hm.
  assert (0 <= round_nearest_even m l <= m + 1) as [H0 H1].
  { unfold round_nearest_even. destruct l as [|[]]; try lia.
    destruct (Z.even m); lia. }
  split; [exact H0|].
  pose proof (Zdigits2_nonneg m) as HD.
  apply Zdigits2_le; [lia|]. split; [exact H0|].
  assert (m < 2 ^ Zdigits2 m) as Hlt.
  { destruct m as [|p|p]; [reflexivity|apply Zdigits2_gt|lia]. }
  rewrite Z.pow_add_r, Z.pow_1_r by lia. lia.
Qed.

(** A magnitude below [2 ^ 1023] never rounds to an infinity. *)
Lemma binary_round_aux_finite (s : bool) (m e : Z) (l : location) :
  0 <= m -> Zdigits2 m + e <= 1023 -> e <= 971 ->
  Float.is_infinity (binary_round_aux Float.prec Float.emax s m e l) = false.
Proof.
  intros Hm HM He. unfold binary_round_aux.
  pose proof (shr_fexp_spec m e l Hm) as H1. cbv zeta in H1.
  destruct (shr_fexp Float.prec Float.emax m e l) as [r1 e1].
  simpl in H1. destruct H1 as (Hr1 & He1 & HM1).
  pose proof (round_nearest_even_digits (shr_m r1) (loc_of_shr_record r1) Hr1)
    as [Hn0 Hnd].
  pose proof (shr_fexp_spec _ e1 loc_Exact Hn0) as H2. cbv zeta in H2.
  destruct (shr_fexp Float.prec Float.emax _ e1 loc_Exact) as [r2 e2].
  simpl in H2. destruct H2 as (Hr2 & He2 & _).
  destruct (shr_m r2); [reflexivity| |reflexivity].
  replace (e2 <=? Float.emax - Float.prec) with true; [reflexivity|].
  symmetry. apply Z.leb_le.
  unfold fexp, emin, Float.prec, Float.emax in *. lia.
Qed.

Lemma of_Z_finite (z : Z) :
  Z.abs z < 2 ^ 1023 -> Float.is_infinity (Float.of_Z z) = false.
Proof.
  intros Hz. unfold Float.of_Z, binary_normalize.
  assert (forall s p, Z.pos p < 2 ^ 1023 ->
    Float.is_infinity (binary_round Float.prec Float.emax s p 0) = false) as H.
  { intros s p Hp. unfold binary_round, shl_align.
    assert (Z.pos (digits2_pos p) <= 1023) as Hd.
    { apply (Zdigits2_le (Z.pos p)); lia. }
    destruct (fexp Float.prec Float.emax (Z.pos (digits2_pos p) + 0) - 0)
      as [|k|k] eqn:Hk.
    - apply binary_round_aux_finite; simpl; lia.
    - apply binary_round_aux_finite; simpl; lia.
    - apply binary_round_aux_finite; simpl; [lia| |].
      + rewrite digits2_pos_shift.
        unfold fexp, emin, Float.prec, Float.emax in *. lia.
      + unfold fexp, emin, Float.prec, Float.emax in *. lia. }
  destruct z as [|p|p]; [reflexivity|apply H; lia|apply H; lia].
Qed.

End Rounding.

(** ** Facts about the fee arithmetic *)

Section Fees.

Lemma binary_round_aux_negative (m e : Z) (l : location) :
  not_positive (binary_round_aux Float.prec Float.emax true m e l) = true.
Proof.
  unfold binary_round_aux.
  destruct (shr_fexp _ _ m e l) as [r1 e1].
  destruct (shr_fexp _ _ _ e1 loc_Exact) as [r2 e2].
  destruct (shr_m r2); [reflexivity| |reflexivity].
  destruct (e2 <=? _); reflexivity.
Qed.

Lemma of_Z_not_positive (z : Z) : z <= 0 -> not_positive (Float.of_Z z) = true.
Proof.
  intros Hz. destruct z as [|p|p]; [reflexivity|lia|].
  unfold Float.of_Z, binary_normalize, binary_round.
  destruct (shl_align _ _ _) as [mz ez]. apply binary_round_aux_negative.
Qed.

Lemma mul_not_positive (mc : positive) (ec : Z) (f : spec_float) :
  not_positive f = true ->
  not_positive (Float.mul (S754_finite false mc ec) f) = true.
Proof.
  destruct f as [s|s| |s m e]; simpl; intros Hf; try reflexivity.
  - exact Hf.
  - subst s. apply binary_round_aux_negative.
Qed.

Lemma max_not_positive (f : spec_float) :
  not_positive f = true -> max Float.lit_1_3 f = Float.lit_1_3.
Proof.
  unfold max. destruct f as [s|s| |s m e]; simpl; intros Hf;
    try reflexivity; subst s; reflexivity.
Qed.

Lemma max_ge (b : spec_float) : Float.leb Float.lit_1_3 (max Float.lit_1_3 b) = true.
Proof.
  unfold max, Float.ltb, Float.leb, SFltb, SFleb.
  destruct (SFcompare Float.lit_1_3 b) as [[]|] eqn:Hc; try reflexivity.
  now rewrite Hc.
Qed.

Lemma float_of_int_small (z : Z) :
  Z.abs z < 2 ^ 1023 -> float_of_int z = Ok (Float.of_Z z).
Proof.
  intros Hz. unfold float_of_int. now rewrite of_Z_finite.
Qed.

Lemma float_of_int_Ok (z : Z) (f : spec_float) :
  float_of_int z = Ok f -> f = Float.of_Z z.
Proof.
  unfold float_of_int. destruct (Float.is_infinity _); congruence.
Qed.

Lemma float_of_int_raise (z : Z) (e : exn) :
  float_of_int z = Raise e -> e = OverflowError.
Proof.
  unfold float_of_int. destruct (Float.is_infinity _); congruence.
Qed.

(** On an integer quantity the method computes the specification's
    fee table and touches nothing. *)
Lemma calculate_ib_commision_int (q : Z) (w : world) :
  quantity_is w (VInt q) ->
  FillEvent.calculate_ib_commision w
  = (VFloat <$> CommissionPolicy.compute q, w).
Proof.
  unfold quantity_is, attr. intros Hq.
  unfold FillEvent.calculate_ib_commision, CommissionPolicy.compute.
  unfold mbind, M_bind, getattr, lift, le_int, float_mul. rewrite Hq.
  destruct (q <=? 500); rewrite Hq;
    destruct (float_of_int q) as [f|e]; reflexivity.
Qed.

Lemma compute_not_positive (q : Z) (f : spec_float) :
  q <= 0 -> float_of_int q = Ok f ->
  CommissionPolicy.compute q = Ok Float.lit_1_3.
Proof.
  intros Hq Hf. unfold CommissionPolicy.compute.
  replace (q <=? 500) with true by (symmetry; apply Z.leb_le; lia).
  rewrite Hf. simpl. f_equal. apply max_not_positive.
  apply mul_not_positive. rewrite (float_of_int_Ok _ _ Hf).
  now apply of_Z_not_positive.
Qed.

Lemma compute_ge (q : Z) (f : spec_float) :
  float_of_int q = Ok f ->
  ∃ c, CommissionPolicy.compute q = Ok c
       ∧ Float.leb Float.lit_1_3 c = true.
Proof.
  intros Hf. unfold CommissionPolicy.compute.
  destruct (q <=? 500); rewrite Hf; simpl; eexists; split;
    try reflexivity; apply max_ge.
Qed.

Lemma compute_raise (q : Z) (e : exn) :
  CommissionPolicy.compute q = Raise e -> e = OverflowError.
Proof.
  unfold CommissionPolicy.compute.
  destruct (q <=? 500); destruct (float_of_int q) as [f|e'] eqn:Hf;
    simpl; try discriminate; intros [= <-]; eapply float_of_int_raise, Hf.
Qed.

End Fees.

(** ** The commission computation *)




(** C9. The fee is not monotone in the quantity: 500 shares cost 6.5 and
    501 shares cost 4.008, a strictly smaller fee for the larger
    quantity, because the rate drops from 0.013 to 0.008 above 500. *)
Theorem commission_not_monotone :
  ∃ (q1 q2 : Z) (fee1 fee2 : spec_float),
    q1 < q2
    ∧ (FillEvent.calculate_ib_commision (fill_of_quantity q1)).1
      = Ok (VFloat fee1)
    ∧ (FillEvent.calculate_ib_commision (fill_of_quantity q2)).1
      = Ok (VFloat fee2)
    ∧ q1 = 500 ∧ fee1 = Float.lit_6_5
    ∧ q2 = 501 ∧ fee2 = Float.lit_4_008
    ∧ Float.ltb fee2 fee1 = true.
Proof.
  exists 500, 501, Float.lit_6_5, Float.lit_4_008.
  split; [lia|]. repeat split; vm_compute; reflexivity.
Qed.

(** C8, as the specification states it, fails: an integer too large for
    a double is a quantity for which the method raises. *)
Lemma commission_overflow_counterexample :
  - 10 ^ 400 < 0
  ∧ quantity_is (fill_of_quantity (- 10 ^ 400)) (VInt (- 10 ^ 400))
  ∧ (FillEvent.calculate_ib_commision (fill_of_quantity (- 10 ^ 400))).1
    = Raise OverflowError.
Proof. repeat split; vm_compute; reflexivity. Qed.

(** C8, amended. For every integer quantity that converts to a float
    (every quantity of magnitude below 2 ^ 1023 does), zero and negative
    values included, the commission is at least 1.3, and a negative
    quantity yields exactly 1.3; a quantity that does not convert
    raises [OverflowError]. *)
Theorem commission_at_least_minimum (q : Z) (w : world) :
  quantity_is w (VInt q) ->
  ((Z.abs q < 2 ^ 1023 ∨ ∃ x, float_of_int q = Ok x) ->
   ∃ fee : spec_float,
     (FillEvent.calculate_ib_commision w).1 = Ok (VFloat fee)
     ∧ Float.leb Float.lit_1_3 fee = true
     ∧ (q < 0 -> fee = Float.lit_1_3))
  ∧ (float_of_int q = Raise OverflowError ->
     (FillEvent.calculate_ib_commision w).1 = Raise OverflowError).
Proof.
  intros Hw. rewrite (calculate_ib_commision_int q w Hw). simpl. split.
  - intros Hconv.
    assert (∃ x, float_of_int q = Ok x) as [x Hx].
    { destruct Hconv as [Hsmall|Hx]; [|exact Hx].
      eexists. now apply float_of_int_small. }
    destruct (compute_ge q x Hx) as (fee & Hfee & Hge).
    exists fee. rewrite Hfee. split; [reflexivity|]. split; [exact Hge|].
    intros Hneg.
    rewrite (compute_not_positive q x) in Hfee by (lia || exact Hx).
    congruence.
  - intros Hx. unfold CommissionPolicy.compute.
    destruct (q <=? 500); rewrite Hx; reflexivity.
Qed.

Lemma commission_at_least_minimum_witness :
  quantity_is (fill_of_quantity (-7)) (VInt (-7))
  ∧ (Z.abs (-7) < 2 ^ 1023 ∨ ∃ x, float_of_int (-7) = Ok x)
  ∧ ∃ fee : spec_float,
      (FillEvent.calculate_ib_commision (fill_of_quantity (-7))).1
      = Ok (VFloat fee)
      ∧ Float.leb Float.lit_1_3 fee = true
      ∧ (-7 < 0 -> fee = Float.lit_1_3).
Proof.
  assert (Z.abs (-7) < 2 ^ 1023) as Hsmall by (vm_compute; reflexivity).
  split; [reflexivity|]. split; [left; exact Hsmall|].
  apply (commission_at_least_minimum (-7) (fill_of_quantity (-7)));
    [reflexivity | left; exact Hsmall].
Defined.

(** C4, as the specification states it, fails: the quantity -1 yields
    the minimum fee instead of a [ValidationError], and the
    non-negative quantity 10 ^ 400 does fail. *)
Lemma commission_validation_counterexample :
  (-1 < 0
   ∧ (FillEvent.calculate_ib_commision (fill_of_quantity (-1))).1
     = Ok (VFloat Float.lit_1_3))
  ∧ (0 <= 10 ^ 400
     ∧ (FillEvent.calculate_ib_commision (fill_of_quantity (10 ^ 400))).1
       = Raise OverflowError).
Proof. repeat split; vm_compute; congruence. Qed.

(** C4, amended. On an integer quantity the commission computation
    never raises [ValidationError]; it has no side effect, its outcome
    depends on the quantity alone, and its only failure is
    [OverflowError], raised exactly when the quantity does not convert
    to a float (never for a magnitude below 2 ^ 1023); a negative
    quantity that converts yields 1.3. *)
Theorem commission_pure_and_unvalidated (q : Z) (w : world) :
  quantity_is w (VInt q) ->
  (FillEvent.calculate_ib_commision w).2 = w
  ∧ (∀ w', quantity_is w' (VInt q) ->
       (FillEvent.calculate_ib_commision w').1
       = (FillEvent.calculate_ib_commision w).1)
  ∧ (FillEvent.calculate_ib_commision w).1 ≠ Raise ValidationError
  ∧ (∀ e, (FillEvent.calculate_ib_commision w).1 = Raise e ->
       e = OverflowError)
  ∧ ((FillEvent.calculate_ib_commision w).1 = Raise OverflowError
     <-> float_of_int q = Raise OverflowError)
  ∧ (Z.abs q < 2 ^ 1023 ->
       ∃ fee, (FillEvent.calculate_ib_commision w).1 = Ok (VFloat fee))
  ∧ (q < 0 -> ∀ x, float_of_int q = Ok x ->
       (FillEvent.calculate_ib_commision w).1 = Ok (VFloat Float.lit_1_3)).
Proof.
  intros Hw. rewrite (calculate_ib_commision_int q w Hw). simpl.
  assert (∀ e, VFloat <$> CommissionPolicy.compute q = Raise e ->
            e = OverflowError ∧ float_of_int q = Raise OverflowError) as Hraise.
  { intros e. destruct (CommissionPolicy.compute q) as [c|e'] eqn:Hc;
      simpl; [discriminate|]. intros [= <-].
    pose proof (compute_raise q e' Hc) as ->. split; [reflexivity|].
    destruct (float_of_int q) as [x|e''] eqn:Hx.
    - destruct (compute_ge q x Hx) as (c & Hc' & _). congruence.
    - now rewrite (float_of_int_raise q e'' Hx). }
  split; [reflexivity|]. split.
  { intros w' Hw'. now rewrite (calculate_ib_commision_int q w' Hw'). }
  split.
  { intros Hv. destruct (Hraise _ Hv) as [? _]. discriminate. }
  split; [intros e He; apply (Hraise e He)|]. split.
  { split; [intros He; apply (Hraise _ He)|].
    intros Hx. unfold CommissionPolicy.compute.
    destruct (q <=? 500); rewrite Hx; reflexivity. }
  split.
  - intros Hsmall.
    destruct (compute_ge q _ (float_of_int_small q Hsmall)) as (c & -> & _).
    now exists c.
  - intros Hneg x Hx. rewrite (compute_not_positive q x); [reflexivity|lia|exact Hx].
Qed.

Lemma commission_pure_and_unvalidated_witness :
  quantity_is (fill_of_quantity (-1)) (VInt (-1))
  ∧ (FillEvent.calculate_ib_commision (fill_of_quantity (-1))).1
    ≠ Raise ValidationError.
Proof.
  split; [reflexivity|].
  apply (commission_pure_and_unvalidated (-1) (fill_of_quantity (-1))).
  reflexivity.
Defined.

(** ** Argument binding *)

Section Binding.

Implicit Types (ps : params) (args : list pyval)
  (kwargs : list (string * pyval)) (m : gmap string pyval).

Lemma bind_positional_raise ps args e :
  bind_positional ps args = Raise e -> e = TypeError.
Proof.
  revert ps; induction args as [|a args IH]; intros [|[p d] ps]; simpl;
    try congruence.
  destruct (bind_positional ps args) eqn:Hb; simpl; [congruence|].
  intros [= <-]. eauto.
Qed.

Lemma bind_keywords_raise ps kwargs m e :
  bind_keywords ps kwargs m = Raise e -> e = TypeError.
Proof.
  revert m; induction kwargs as [|[k v] kwargs IH]; intros m; simpl;
    [congruence|].
  case_bool_decide; [|congruence].
  destruct (m !! k); [congruence|]. apply IH.
Qed.

Lemma bind_defaults_raise ps m e :
  bind_defaults ps m = Raise e -> e = TypeError.
Proof.
  revert m; induction ps as [|[p d] ps IH]; intros m; simpl; [congruence|].
  destruct (m !! p); [apply IH|]. destruct d; [apply IH|congruence].
Qed.

Lemma bind_args_raise ps args kwargs e :
  bind_args ps args kwargs = Raise e -> e = TypeError.
Proof.
  unfold bind_args.
  destruct (bind_positional ps args) as [m0|e0] eqn:H0; simpl.
  - destruct (bind_keywords ps kwargs m0) as [m1|e1] eqn:H1; simpl.
    + apply bind_defaults_raise.
    + intros [= <-]. eapply bind_keywords_raise, H1.
  - intros [= <-]. eapply bind_positional_raise, H0.
Qed.

(** Positional binding gives values to the leading parameters only. *)
Lemma bind_positional_bound ps args m name :
  bind_positional ps args = Ok m -> is_Some (m !! name) ->
  ∃ i, (i < length args)%nat ∧ ps.*1 !! i = Some name.
Proof.
  revert ps m; induction args as [|a args IH]; intros [|[p d] ps] m; simpl;
    try congruence.
  - intros [= <-]. rewrite lookup_empty. intros []; discriminate.
  - intros [= <-]. rewrite lookup_empty. intros []; discriminate.
  - destruct (bind_positional ps args) as [m'|] eqn:Hb; simpl; [|congruence].
    intros [= <-] Hsome. destruct (decide (p = name)) as [->|Hne].
    + exists 0%nat. split; [lia|reflexivity].
    + rewrite lookup_insert_ne in Hsome by done.
      destruct (IH ps m' Hb Hsome) as (i & Hi & Hl).
      exists (S i). split; [lia|exact Hl].
Qed.

(** Keyword binding gives values to the names it is passed only. *)
Lemma bind_keywords_bound ps kwargs m m' name :
  bind_keywords ps kwargs m = Ok m' -> is_Some (m' !! name) ->
  is_Some (m !! name) ∨ name ∈ kwargs.*1.
Proof.
  revert m; induction kwargs as [|[k v] kwargs IH]; intros m; simpl.
  - intros [= <-]. auto.
  - case_bool_decide; [|congruence].
    destruct (m !! k) eqn:Hk; [congruence|]. intros Hb Hsome.
    destruct (IH _ Hb Hsome) as [Hin|Hin].
    + destruct (decide (k = name)) as [->|Hne]; [right; simpl; left|].
      rewrite lookup_insert_ne in Hin by done. auto.
    + right. simpl. now right.
Qed.

(** Filling in defaults succeeds only if every parameter without a
    default already has a value. *)
Lemma bind_defaults_required ps m m' i name :
  NoDup ps.*1 -> bind_defaults ps m = Ok m' ->
  ps !! i = Some (name, None) -> is_Some (m !! name).
Proof.
  revert m i; induction ps as [|[p d] ps IH]; intros m i Hnd; simpl;
    [intros _; destruct i; discriminate|].
  apply NoDup_cons in Hnd as [Hp Hnd].
  destruct (m !! p) as [v|] eqn:Hmp.
  - intros Hb. destruct i as [|i]; simpl.
    + intros [= -> _]. eauto.
    + eauto.
  - destruct d as [v|]; [|congruence].
    intros Hb. destruct i as [|i]; simpl; [congruence|].
    intros Hi. pose proof (IH _ _ Hnd Hb Hi) as Hsome.
    assert (name ∈ ps.*1) as Hin.
    { apply list_elem_of_fmap. exists (name, None). split; [done|].
      eapply list_elem_of_lookup_2, Hi. }
    rewrite lookup_insert_ne in Hsome by (intros ->; done). exact Hsome.
Qed.

Lemma bind_args_missing ps args kwargs i name :
  NoDup ps.*1 -> ps !! i = Some (name, None) ->
  (length args ≤ i)%nat -> name ∉ kwargs.*1 ->
  bind_args ps args kwargs = Raise TypeError.
Proof.
  intros Hnd Hi Hlen Hkw.
  destruct (bind_args ps args kwargs) as [l|e] eqn:Hb;
    [|now rewrite (bind_args_raise _ _ _ _ Hb)].
  exfalso. unfold bind_args in Hb.
  destruct (bind_positional ps args) as [m0|] eqn:H0; simpl in Hb;
    [|discriminate].
  destruct (bind_keywords ps kwargs m0) as [m1|] eqn:H1; simpl in Hb;
    [|discriminate].
  pose proof (bind_defaults_required _ _ _ _ _ Hnd Hb Hi) as Hsome.
  destruct (bind_keywords_bound _ _ _ _ _ H1 Hsome) as [Hpos|Hin]; [|done].
  destruct (bind_positional_bound _ _ _ _ H0 Hpos) as (j & Hj & Hl).
  assert (ps.*1 !! i = Some name) as Hi'.
  { rewrite list_lookup_fmap, Hi. reflexivity. }
  pose proof (NoDup_lookup _ _ _ _ Hnd Hi' Hl). lia.
Qed.

Lemma parameters_NoDup (c : class) : NoDup (parameters_of c).*1.
Proof. destruct c; apply (bool_decide_unpack _); vm_compute; exact I. Qed.

End Binding.

(** ** Construction *)

Section Construction.

Implicit Types (args : list pyval) (kwargs : list (string * pyval))
  (l : gmap string pyval) (out : string).

Lemma new_missing (c : class) args kwargs out :
  misses_required c args kwargs ->
  new c args kwargs out = (Raise TypeError, out).
Proof.
  intros (i & name & Hi & Hlen & Hkw). unfold new, call_init. run.
  now rewrite (bind_args_missing _ _ _ i name (parameters_NoDup c) Hi Hlen Hkw).
Qed.

(** [FillEvent.__init__] on a fresh instance: the misspelt method name
    is found neither in the instance nor in the class. *)
Lemma FillEvent_init_fresh (t s e q d fc c : pyval) out :
  FillEvent.__init__ t s e q d fc c (World (Object CFillEvent ∅) out)
  = match c with
    | VNone =>
        (Raise AttributeError,
         World (Object CFillEvent
                  (<["fill_cost" := fc]> (<["direction" := d]>
                  (<["quantity" := q]> (<["exchange" := e]>
                  (<["symbol" := s]> (<["timeindex" := t]>
                  (<["type" := VStr "FILL"]> ∅))))))))
               out)
    | _ =>
        (Ok tt,
         World (Object CFillEvent
                  (<["commission" := c]>
                  (<["fill_cost" := fc]> (<["direction" := d]>
                  (<["quantity" := q]> (<["exchange" := e]>
                  (<["symbol" := s]> (<["timeindex" := t]>
                  (<["type" := VStr "FILL"]> ∅)))))))))
               out)
    end.
Proof.
  unfold FillEvent.__init__. run.
  destruct c; reflexivity.
Qed.

Lemma new_raise (c : class) args kwargs out e :
  (new c args kwargs out).1 = Raise e -> e = TypeError ∨ e = AttributeError.
Proof.
  unfold new, call_init. run.
  destruct (bind_args (parameters_of c) args kwargs) as [l|e'] eqn:Hb.
  - destruct c;
      cbv [init_body Event.__init__ MarketEvent.__init__
           SignalEvent.__init__ OrderEvent.__init__];
      run; try discriminate.
    rewrite FillEvent_init_fresh.
      destruct (local l "commission"); simpl; try discriminate.
      intros [= <-]. now right.
  - simpl. intros [= <-]. left. eapply bind_args_raise, Hb.
Qed.

Lemma new_OrderEvent_positional (symbol order_type quantity direction : pyval)
    out :
  new COrderEvent [symbol; order_type; quantity; direction] [] out
  = (Ok (order_instance symbol order_type quantity direction), out).
Proof. reflexivity. Qed.

(** However the arguments are passed, a constructed [OrderEvent] holds
    the four bound values and its discriminant, and nothing was
    written. *)
Lemma new_OrderEvent_inv args kwargs out (o : object) (out' : string) :
  new COrderEvent args kwargs out = (Ok o, out') ->
  out' = out
  ∧ ∃ l, bind_args OrderEvent.parameters args kwargs = Ok l
         ∧ o = order_instance (local l "symbol") (local l "order_type")
                 (local l "quantity") (local l "direction").
Proof.
  unfold new, call_init. run. cbv [parameters_of].
  destruct (bind_args OrderEvent.parameters args kwargs) as [l|e];
    [|discriminate].
  cbv [init_body OrderEvent.__init__]. run. intros [= <- <-].
  split; [reflexivity|]. exists l. split; reflexivity.
Qed.

Lemma new_FillEvent_positional (t s e q d fc : pyval) out :
  new CFillEvent [t; s; e; q; d; fc] [] out = (Raise AttributeError, out).
Proof. reflexivity. Qed.

End Construction.

(** C3, as the specification states it, fails: an [OrderEvent] with
    quantity -1 is constructed, and a call that omits [direction] fails
    with [TypeError]. *)
Lemma order_validation_counterexample :
  (∃ o, new COrderEvent [VStr "GOOG"; VStr "MKT"; VInt (-1); VStr "BUY"] [] ""
        = (Ok o, "")
        ∧ attr o "quantity" = Some (VInt (-1)))
  ∧ misses_required COrderEvent [VStr "GOOG"; VStr "MKT"; VInt 100] []
  ∧ new COrderEvent [VStr "GOOG"; VStr "MKT"; VInt 100] [] ""
    = (Raise TypeError, "").
Proof.
  split; [eexists; split; reflexivity|]. split; [|reflexivity].
  exists 3%nat, "direction". split; [reflexivity|]. split; [simpl; lia|].
  simpl. apply not_elem_of_nil.
Qed.

(** C3, amended. Constructing an event with a required field missing
    fails with [TypeError]; no construction fails with
    [ValidationError]; an [OrderEvent] given its four fields is always
    constructed and holds the quantity it was given, whatever its
    sign. *)
Theorem construction_validates_nothing (c : class) (args : list pyval)
    (kwargs : list (string * pyval)) (out : string) :
  (misses_required c args kwargs ->
   new c args kwargs out = (Raise TypeError, out))
  ∧ (new c args kwargs out).1 ≠ Raise ValidationError
  ∧ (∀ symbol order_type quantity direction : pyval,
       ∃ o, new COrderEvent [symbol; order_type; quantity; direction] [] out
            = (Ok o, out)
            ∧ attr o "symbol" = Some symbol
            ∧ attr o "order_type" = Some order_type
            ∧ attr o "quantity" = Some quantity
            ∧ attr o "direction" = Some direction)
  ∧ (∀ o out', new COrderEvent args kwargs out = (Ok o, out') ->
       ∃ l, bind_args OrderEvent.parameters args kwargs = Ok l
            ∧ attr o "quantity" = Some (local l "quantity")).
Proof.
  split; [apply new_missing|]. split.
  { intros Hv. destruct (new_raise _ _ _ _ _ Hv); discriminate. }
  split.
  { intros s t q d. eexists. split; [apply new_OrderEvent_positional|].
    repeat split; reflexivity. }
  intros o out' Hnew.
  destruct (new_OrderEvent_inv _ _ _ _ _ Hnew) as (_ & l & Hl & ->).
  exists l. split; [exact Hl|reflexivity].
Qed.

Lemma construction_validates_nothing_witness :
  misses_required CSignalEvent [VInt 1; VStr "GOOG"] [("strength", VInt 1)]
  ∧ new CSignalEvent [VInt 1; VStr "GOOG"] [("strength", VInt 1)] ""
    = (Raise TypeError, "").
Proof.
  assert (misses_required CSignalEvent [VInt 1; VStr "GOOG"]
            [("strength", VInt 1)]) as Hm.
  { exists 2%nat, "datetime". split; [reflexivity|]. split; [simpl; lia|].
    simpl. intros Hin. apply list_elem_of_singleton in Hin. discriminate. }
  split; [exact Hm|].
  exact (proj1 (construction_validates_nothing CSignalEvent
                  [VInt 1; VStr "GOOG"] [("strength", VInt 1)] "") Hm).
Defined.

(** C2, on the code. A [FillEvent] constructed without a commission, or
    with [commission=None], is never built: the constructor calls
    [calculate_ib_commission], a name the class does not define (its
    method is [calculate_ib_commision]), and raises [AttributeError].
    With an explicit commission the event is built and holds exactly
    that value. *)
Theorem fill_default_commission_raises
    (t s e q d fc : pyval) (out : string) :
  new CFillEvent [t; s; e; q; d; fc] [] out = (Raise AttributeError, out)
  ∧ new CFillEvent [t; s; e; q; d; fc; VNone] [] out
    = (Raise AttributeError, out)
  ∧ new CFillEvent [t; s; e; q; d; fc] [("commission", VNone)] out
    = (Raise AttributeError, out)
  ∧ FillEvent.methods "calculate_ib_commission" = None
  ∧ FillEvent.methods "calculate_ib_commision"
    = Some FillEvent.calculate_ib_commision
  ∧ (∀ c : spec_float,
       ∃ o, new CFillEvent [t; s; e; q; d; fc; VFloat c] [] out = (Ok o, out)
            ∧ attr o "commission" = Some (VFloat c)
            ∧ attr o "quantity" = Some q).
Proof.
  repeat split; try reflexivity.
  intros c. eexists. repeat split; reflexivity.
Qed.

(** ** The diagnostic rendering *)

Section Rendering.

Context `{!FloatRepr}.

Lemma append_empty_r (s : string) : s +:+ "" = s.
Proof.
  induction s as [|c s IH]; [reflexivity|].
  change (String c (s +:+ "") = String c s). now rewrite IH.
Qed.

Lemma str_format_template (s t q d : pyval) :
  str_format OrderEvent.template [s; t; q; d] = Ok (order_text s t q d).
Proof.
  unfold OrderEvent.template. cbn [str_format]. cbv [mbind result_bind].
  rewrite append_empty_r. reflexivity.
Qed.

(** On a receiver that has the four attributes, [print_order] writes
    the order's line and a newline, returns [None] and leaves the
    receiver as it was. *)
Lemma print_order_spec (w : world) (s t q d : pyval) :
  attr (self w) "symbol" = Some s ->
  attr (self w) "order_type" = Some t ->
  attr (self w) "quantity" = Some q ->
  attr (self w) "direction" = Some d ->
  OrderEvent.print_order w
  = (Ok VNone, World (self w) (stdout w +:+ order_text s t q d +:+ newline)).
Proof.
  unfold attr. intros Hs Ht Hq Hd. unfold OrderEvent.print_order. run.
  rewrite Hs. cbn [self]. rewrite Ht. cbn [self]. rewrite Hq. cbn [self].
  rewrite Hd. rewrite str_format_template. reflexivity.
Qed.

(** Whatever the receiver, [print_order] does not change it. *)
Lemma print_order_self (w : world) : self (OrderEvent.print_order w).2 = self w.
Proof.
  unfold OrderEvent.print_order. run.
  destruct (obj_dict (self w) !! "symbol"); [|reflexivity].
  destruct (obj_dict (self w) !! "order_type"); [|reflexivity].
  destruct (obj_dict (self w) !! "quantity"); [|reflexivity].
  destruct (obj_dict (self w) !! "direction"); [|reflexivity].
  destruct (str_format _ _); reflexivity.
Qed.

Lemma order_instance_attrs (s t q d : pyval) :
  attr (order_instance s t q d) "type" = Some (VStr "ORDER")
  ∧ attr (order_instance s t q d) "symbol" = Some s
  ∧ attr (order_instance s t q d) "order_type" = Some t
  ∧ attr (order_instance s t q d) "quantity" = Some q
  ∧ attr (order_instance s t q d) "direction" = Some d.
Proof. repeat split; reflexivity. Qed.

End Rendering.

(** ** The discriminant *)

Section Kind.

Context `{!FloatRepr}.

(** Whatever the receiver, [calculate_ib_commision] changes nothing. *)
Lemma calculate_ib_commision_world (w : world) :
  (FillEvent.calculate_ib_commision w).2 = w.
Proof.
  unfold FillEvent.calculate_ib_commision. run.
  destruct (obj_dict (self w) !! "quantity") as [v|] eqn:Hv; [|reflexivity].
  destruct (le_int v 500) as [[]|]; [| |reflexivity];
    rewrite Hv; destruct (float_mul _ v); reflexivity.
Qed.

(** Running an initialiser keeps the class of the receiver and, once
    its arguments are bound, sets the discriminant of that class. *)
Lemma call_init_kind (c : class) (k : string) (args : list pyval)
    (kwargs : list (string * pyval)) (w : world) :
  kind_of c = Some k -> obj_class (self w) = c ->
  obj_class (self (call_init c args kwargs w).2) = c
  ∧ (attr (self w) "type" = Some (VStr k)
     ∨ (∃ u, (call_init c args kwargs w).1 = Ok u) ->
     attr (self (call_init c args kwargs w).2) "type" = Some (VStr k)).
Proof.
  intros Hk Hc. unfold call_init. run.
  destruct (bind_args (parameters_of c) args kwargs) as [l|e].
  - assert (obj_class (self (init_body c l w).2) = c
            ∧ attr (self (init_body c l w).2) "type" = Some (VStr k))
      as [Hc' Hk'].
    { unfold attr.
      destruct c; simplify_eq/=;
        cbv [init_body MarketEvent.__init__ SignalEvent.__init__
             OrderEvent.__init__ FillEvent.__init__]; run.
      - split; [assumption|]. apply lookup_insert_eq.
      - split; [assumption|].
        rewrite !lookup_insert_ne by done. apply lookup_insert_eq.
      - split; [assumption|].
        rewrite !lookup_insert_ne by done. apply lookup_insert_eq.
      - destruct (local l "commission"); run;
          try (split; [assumption|];
               rewrite !lookup_insert_ne by done; apply lookup_insert_eq).
        change (FillEvent.methods "calculate_ib_commission")
          with (@None (M pyval)).
        destruct (_ !! "calculate_ib_commission");
          cbn [fst snd self obj_class obj_dict];
          (split; [assumption|];
           rewrite !lookup_insert_ne by done; apply lookup_insert_eq). }
    destruct (init_body c l w) as [[u|e] w']; simpl in *; auto.
  - simpl. split; [exact Hc|]. intros [Ht|[u Hu]]; [exact Ht|discriminate].
Qed.

Lemma perform_kind (c : class) (k : string) (op : operation) (w : world) :
  kind_of c = Some k -> has_kind c k (self w) ->
  has_kind c k (self (perform op w).2).
Proof.
  intros Hk [Hc Ht]. destruct op as [args kwargs|name]; unfold perform.
  - rewrite Hc.
    destruct (call_init_kind c k args kwargs w Hk Hc) as [Hc' Hk'].
    run. destruct (call_init c args kwargs w) as [[u|e] w']; simpl in *;
      split; auto.
  - rewrite Hc. unfold call_method.
    destruct (obj_dict (self w) !! name); [split; assumption|].
    destruct c; simplify_eq/=; try (split; assumption).
    + unfold OrderEvent.methods. case_decide; [|split; assumption].
      unfold has_kind. rewrite print_order_self. split; assumption.
    + unfold FillEvent.methods. case_decide; [|split; assumption].
      rewrite calculate_ib_commision_world. split; assumption.
Qed.

Lemma perform_all_kind (c : class) (k : string) (ops : list operation)
    (w : world) :
  kind_of c = Some k -> has_kind c k (self w) ->
  has_kind c k (self (perform_all ops w)).
Proof.
  intros Hk. revert w. induction ops as [|op ops IH]; intros w Hw; simpl.
  - exact Hw.
  - apply IH, perform_kind; assumption.
Qed.


End Kind.

(** C5, as the specification states it, fails: [print_order] does not
    produce the line as its value with no other effect; it returns
    [None] and appends the line and a newline to standard output. *)
Lemma print_order_counterexample :
  new COrderEvent [VStr "GOOG"; VStr "MKT"; VInt 100; VStr "BUY"] [] ""
  = (Ok (order_instance (VStr "GOOG") (VStr "MKT") (VInt 100) (VStr "BUY")), "")
  ∧ @OrderEvent.print_order no_float_repr
      (World (order_instance (VStr "GOOG") (VStr "MKT") (VInt 100) (VStr "BUY"))
             "")
    = (Ok VNone,
       World (order_instance (VStr "GOOG") (VStr "MKT") (VInt 100) (VStr "BUY"))
             ("Order: Symbol=GOOG, Type=MKT, Quantity=100, Direction=BUY"
              +:+ newline))
  ∧ @OrderEvent.print_order no_float_repr
      (World (order_instance (VStr "GOOG") (VStr "MKT") (VInt 100) (VStr "BUY"))
             "")
    ≠ (Ok (VStr "Order: Symbol=GOOG, Type=MKT, Quantity=100, Direction=BUY"),
       World (order_instance (VStr "GOOG") (VStr "MKT") (VInt 100) (VStr "BUY"))
             "").
Proof.
  split; [reflexivity|].
  assert (@OrderEvent.print_order no_float_repr
            (World (order_instance (VStr "GOOG") (VStr "MKT") (VInt 100)
                      (VStr "BUY")) "")
          = (Ok VNone,
             World (order_instance (VStr "GOOG") (VStr "MKT") (VInt 100)
                      (VStr "BUY"))
                   ("Order: Symbol=GOOG, Type=MKT, Quantity=100, Direction=BUY"
                    +:+ newline))) as Hrun.
  { rewrite (print_order_spec _ (VStr "GOOG") (VStr "MKT") (VInt 100)
               (VStr "BUY")); reflexivity. }
  split; [exact Hrun|]. rewrite Hrun. discriminate.
Qed.

(** C5, amended. For every constructed [OrderEvent], [print_order]
    writes to standard output exactly the line
    Order: Symbol=<symbol>, Type=<order_type>, Quantity=<quantity>,
    Direction=<direction>, with the event's stored fields substituted,
    followed by a newline, and returns [None]; writing that line is its
    only effect. *)
Theorem print_order_writes_line `{!FloatRepr}
    (args : list pyval) (kwargs : list (string * pyval))
    (out0 out1 out : string) (o : object) :
  new COrderEvent args kwargs out0 = (Ok o, out1) ->
  ∃ symbol order_type quantity direction : pyval,
    attr o "symbol" = Some symbol
    ∧ attr o "order_type" = Some order_type
    ∧ attr o "quantity" = Some quantity
    ∧ attr o "direction" = Some direction
    ∧ OrderEvent.print_order (World o out)
      = (Ok VNone,
         World o (out +:+ order_text symbol order_type quantity direction
                      +:+ newline)).
Proof.
  intros Hnew. destruct (new_OrderEvent_inv _ _ _ _ _ Hnew) as (_ & l & _ & ->).
  destruct (order_instance_attrs (local l "symbol") (local l "order_type")
              (local l "quantity") (local l "direction"))
    as (_ & Hs & Ht & Hq & Hd).
  do 4 eexists. repeat (split; [eassumption|]).
  now rewrite (print_order_spec (World _ out) _ _ _ _ Hs Ht Hq Hd).
Qed.

Lemma print_order_writes_line_witness :
  new COrderEvent [VStr "GOOG"; VStr "MKT"]
    [("direction", VStr "BUY"); ("quantity", VInt 100)] ""
  = (Ok (order_instance (VStr "GOOG") (VStr "MKT") (VInt 100) (VStr "BUY")), "")
  ∧ ∃ symbol order_type quantity direction : pyval,
      attr (order_instance (VStr "GOOG") (VStr "MKT") (VInt 100) (VStr "BUY"))
           "symbol" = Some symbol
      ∧ attr (order_instance (VStr "GOOG") (VStr "MKT") (VInt 100) (VStr "BUY"))
             "order_type" = Some order_type
      ∧ attr (order_instance (VStr "GOOG") (VStr "MKT") (VInt 100) (VStr "BUY"))
             "quantity" = Some quantity
      ∧ attr (order_instance (VStr "GOOG") (VStr "MKT") (VInt 100) (VStr "BUY"))
             "direction" = Some direction
      ∧ @OrderEvent.print_order no_float_repr
          (World (order_instance (VStr "GOOG") (VStr "MKT") (VInt 100)
                    (VStr "BUY")) "log: ")
        = (Ok VNone,
           World (order_instance (VStr "GOOG") (VStr "MKT") (VInt 100)
                    (VStr "BUY"))
                 ("log: "
                  +:+ @order_text no_float_repr symbol order_type quantity
                        direction
                  +:+ newline)).
Proof.
  split; [reflexivity|].
  apply (@print_order_writes_line no_float_repr
           [VStr "GOOG"; VStr "MKT"] [("direction", VStr "BUY");
                                      ("quantity", VInt 100)] "" "" "log: ").
  reflexivity.
Defined.

(** C10. [print_order] leaves the [OrderEvent] unchanged: for every
    constructed [OrderEvent] the call returns, and [type], [symbol],
    [order_type], [quantity] and [direction] have afterwards the values
    they had before. *)
Theorem print_order_leaves_order_unchanged `{!FloatRepr}
    (args : list pyval) (kwargs : list (string * pyval))
    (out0 out1 out : string) (o : object) :
  new COrderEvent args kwargs out0 = (Ok o, out1) ->
  (OrderEvent.print_order (World o out)).1 = Ok VNone
  ∧ self (OrderEvent.print_order (World o out)).2 = o
  ∧ Forall
      (λ field,
         is_Some (attr o field)
         ∧ attr (self (OrderEvent.print_order (World o out)).2) field
           = attr o field)
      ["type"; "symbol"; "order_type"; "quantity"; "direction"].
Proof.
  intros Hnew. destruct (new_OrderEvent_inv _ _ _ _ _ Hnew) as (_ & l & _ & ->).
  destruct (order_instance_attrs (local l "symbol") (local l "order_type")
              (local l "quantity") (local l "direction"))
    as (Hk & Hs & Ht & Hq & Hd).
  rewrite (print_order_spec (World _ out) _ _ _ _ Hs Ht Hq Hd). cbn [fst snd self].
  split; [reflexivity|]. split; [reflexivity|].
  repeat (apply Forall_cons; split; [split; [eauto|reflexivity]|]).
  apply Forall_nil_2.
Qed.

Lemma print_order_leaves_order_unchanged_witness :
  new COrderEvent [VStr "GOOG"; VStr "MKT"; VInt 100; VStr "BUY"] [] ""
  = (Ok (order_instance (VStr "GOOG") (VStr "MKT") (VInt 100) (VStr "BUY")), "")
  ∧ self (@OrderEvent.print_order no_float_repr
            (World (order_instance (VStr "GOOG") (VStr "MKT") (VInt 100)
                      (VStr "BUY")) "")).2
    = order_instance (VStr "GOOG") (VStr "MKT") (VInt 100) (VStr "BUY").
Proof.
  split; [reflexivity|].
  apply (@print_order_leaves_order_unchanged no_float_repr
           [VStr "GOOG"; VStr "MKT"; VInt 100; VStr "BUY"] [] "" "" "").
  reflexivity.
Defined.

(** ** Client operations and the discriminant *)

Section ClientOperations.

Context `{!FloatRepr} `{!ObjectMethods}.










End ClientOperations.




(** ** The event queue *)

Section Queue.

Lemma push_all_app (es : list object) (q : EventQueue.t) :
  EventQueue.push_all es q = q ++ es.
Proof.
  unfold EventQueue.push_all. revert q.
  induction es as [|e es IH]; intros q; simpl.
  - now rewrite app_nil_r.
  - rewrite IH. unfold EventQueue.push. now rewrite <- app_assoc.
Qed.

Lemma pop_n_app (q r : EventQueue.t) :
  EventQueue.pop_n (length q) (q ++ r) = (Some <$> q, r).
Proof.
  induction q as [|e q IH]; simpl; [reflexivity|]. now rewrite IH.
Qed.

End Queue.

(** C7. The queue is first in, first out: pushing E1, E2, E3 in that
    order and popping three times yields E1, E2, E3; in general the
    events come out in the order they went in, behind those already
    pending, and an empty queue answers a poll with the empty
    indicator. *)
Theorem queue_is_fifo (e1 e2 e3 : object) :
  EventQueue.pop_n 3
    (EventQueue.push e3 (EventQueue.push e2
       (EventQueue.push e1 EventQueue.empty)))
  = ([Some e1; Some e2; Some e3], EventQueue.empty)
  ∧ (∀ (q : EventQueue.t) (es : list object),
       EventQueue.pop_n (length q + length es) (EventQueue.push_all es q)
       = (Some <$> (q ++ es), EventQueue.empty))
  ∧ EventQueue.pop EventQueue.empty = (None, EventQueue.empty).
Proof.
  split; [reflexivity|]. split; [|reflexivity].
  intros q es. rewrite push_all_app, <- length_app.
  rewrite <- (app_nil_r (q ++ es)) at 2. apply pop_n_app.
Qed.

(** * Further properties of the code *)

(** ** More on binary64 rounding *)

Section RoundingBelow.

Lemma Zdigits2_mono (a b : Z) : 0 <= a <= b -> Zdigits2 a <= Zdigits2 b.
Proof.
  intros [Ha Hab]. apply Zdigits2_le; [apply Zdigits2_nonneg|].
  split; [exact Ha|].
  destruct b as [|p|p]; [simpl; lia| |lia].
  pose proof (Zdigits2_gt p). simpl. lia.
Qed.

Lemma Zdigits2_lower (p : positive) : 2 ^ (Z.pos (digits2_pos p) - 1) <= Z.pos p.
Proof.
  rewrite digits2_pos_size.
  pose proof (Pos.size_le p) as H.
  apply Pos2Z.pos_le_pos in H. rewrite Pos2Z.inj_pow in H.
  replace (Z.pos (Pos.size p)) with ((Z.pos (Pos.size p) - 1) + 1) in H by lia.
  rewrite Z.pow_add_r, Z.pow_1_r in H by lia. lia.
Qed.

Lemma Zdigits2_above (z k : Z) : 0 <= k -> 2 ^ k <= z -> k < Zdigits2 z.
Proof.
  intros Hk Hz. assert (0 < 2 ^ k) by (apply Z.pow_pos_nonneg; lia).
  destruct z as [|p|p]; [lia| |lia].
  pose proof (Zdigits2_gt p) as Hlt. simpl.
  apply (Z.pow_lt_mono_r_iff 2); lia.
Qed.

Lemma digits2_pos_mul (a b : positive) :
  Z.pos (digits2_pos a) + Z.pos (digits2_pos b) - 1
  <= Z.pos (digits2_pos (a * b)).
Proof.
  pose proof (Zdigits2_lower a) as Ha. pose proof (Zdigits2_lower b) as Hb.
  assert (2 ^ (Z.pos (digits2_pos a) - 1 + (Z.pos (digits2_pos b) - 1))
          <= Z.pos (a * b)) as Hab.
  { rewrite Z.pow_add_r by lia. rewrite Pos2Z.inj_mul.
    apply Z.mul_le_mono_nonneg; try assumption; apply Z.pow_nonneg; lia. }
  apply Zdigits2_above in Hab; [|lia]. simpl in Hab. lia.
Qed.

Lemma round_nearest_even_ge (m : Z) (l : location) :
  m <= round_nearest_even m l.
Proof.
  unfold round_nearest_even. destruct l as [|[]]; try lia.
  destruct (Z.even m); lia.
Qed.

(** Rounding a positive number in the normal range gives a positive
    finite double, or an infinity, whose exponent and magnitude are not
    below those of the number. *)
Lemma binary_round_aux_lower (m e : Z) (l : location) :
  0 < m -> -1073 <= Zdigits2 m + e ->
  match binary_round_aux Float.prec Float.emax false m e l with
  | S754_finite false m' e' =>
      fexp Float.prec Float.emax (Zdigits2 m + e) <= e'
      /\ Zdigits2 m + e <= Z.pos (digits2_pos m') + e'
  | S754_infinity false => True
  | _ => False
  end.
Proof.
  intros Hm HM. unfold binary_round_aux.
  pose proof (shr_fexp_spec m e l (Z.lt_le_incl _ _ Hm)) as H1. cbv zeta in H1.
  destruct (shr_fexp Float.prec Float.emax m e l) as [r1 e1].
  simpl in H1. destruct H1 as (Hr1 & He1 & HM1).
  pose proof (round_nearest_even_digits (shr_m r1) (loc_of_shr_record r1) Hr1)
    as [Hn0 Hnd].
  pose proof (round_nearest_even_ge (shr_m r1) (loc_of_shr_record r1)) as Hge.
  pose proof (Zdigits2_mono _ _ (conj Hr1 Hge)) as Hmono.
  pose proof (shr_fexp_spec _ e1 loc_Exact Hn0) as H2. cbv zeta in H2.
  destruct (shr_fexp Float.prec Float.emax _ e1 loc_Exact) as [r2 e2].
  simpl in H2. destruct H2 as (Hr2 & He2 & HM2).
  assert (0 < Zdigits2 m) as HD.
  { destruct m; simpl; lia. }
  pose proof (Zdigits2_nonneg (shr_m r2)) as HD2.
  unfold fexp, emin, Float.prec, Float.emax in *.
  destruct (shr_m r2) as [|m2|m2] eqn:Hm2; simpl in *.
  - lia.
  - destruct (e2 <=? 1024 - 53); [|exact I]. lia.
  - lia.
Qed.

(** The double of an integer from 512 on is a positive finite double of
    magnitude at least 2 ^ 9, or an infinity. *)
Lemma of_Z_lower (q : Z) :
  512 <= q ->
  match Float.of_Z q with
  | S754_finite false m e => 10 <= Z.pos (digits2_pos m) + e
  | S754_infinity false => True
  | _ => False
  end.
Proof.
  intros Hq. destruct q as [|p|p]; [lia| |lia].
  assert (10 <= Z.pos (digits2_pos p)) as Hd.
  { pose proof (Zdigits2_above (Z.pos p) 9 ltac:(lia) ltac:(simpl; lia)).
    simpl in *. lia. }
  unfold Float.of_Z, binary_normalize, binary_round, shl_align.
  destruct (fexp Float.prec Float.emax (Z.pos (digits2_pos p) + 0) - 0)
    as [|k|k] eqn:Hk.
  - pose proof (binary_round_aux_lower (Z.pos p) 0 loc_Exact ltac:(lia)
                  ltac:(simpl; lia)) as H.
    destruct (binary_round_aux _ _ false (Z.pos p) 0 loc_Exact)
      as [s|[]| |[] m e]; simpl in *; try exact H; lia.
  - pose proof (binary_round_aux_lower (Z.pos p) 0 loc_Exact ltac:(lia)
                  ltac:(simpl; lia)) as H.
    destruct (binary_round_aux _ _ false (Z.pos p) 0 loc_Exact)
      as [s|[]| |[] m e]; simpl in *; try exact H; lia.
  - assert (Z.pos (digits2_pos (Pos.iter xO p k))
            + fexp Float.prec Float.emax (Z.pos (digits2_pos p) + 0)
            = Z.pos (digits2_pos p)) as HMz.
    { rewrite digits2_pos_shift. lia. }
    pose proof (binary_round_aux_lower (Z.pos (Pos.iter xO p k))
                  (fexp Float.prec Float.emax (Z.pos (digits2_pos p) + 0))
                  loc_Exact ltac:(lia) ltac:(simpl; lia)) as H.
    destruct (binary_round_aux _ _ false _ _ loc_Exact)
      as [s|[]| |[] m e]; simpl in *; try exact H; lia.
Qed.

(** Above the minimum: 0.008 times the double of an integer from 512 on
    is strictly greater than 1.3. *)
Lemma upper_tier_above_minimum (q : Z) :
  512 <= q ->
  Float.ltb Float.lit_1_3 (Float.mul Float.lit_0_008 (Float.of_Z q)) = true.
Proof.
  intros Hq. pose proof (of_Z_lower q Hq) as Hx.
  destruct (Float.of_Z q) as [s|[]| |[] mx ex]; try contradiction;
    [reflexivity|].
  unfold Float.mul, Float.lit_0_008, SFmul. cbn [xorb].
  pose proof (digits2_pos_mul 4611686018427388 mx) as Hmul.
  change (Z.pos (digits2_pos 4611686018427388)) with 53 in Hmul.
  assert (3 <= Zdigits2 (Z.pos (4611686018427388 * mx)) + (-59 + ex)) as HM.
  { cbn [Zdigits2]. lia. }
  pose proof (binary_round_aux_lower (Z.pos (4611686018427388 * mx))
                (-59 + ex) loc_Exact ltac:(lia) ltac:(lia)) as H.
  destruct (binary_round_aux _ _ false _ _ loc_Exact)
    as [s|[]| |[] m e]; try contradiction; [reflexivity|].
  destruct H as [He _].
  unfold fexp, emin, Float.prec, Float.emax in He.
  unfold Float.ltb, SFltb, Float.lit_1_3, SFcompare.
  replace (-52 ?= e) with Lt; [reflexivity|].
  symmetry. apply Z.compare_lt_iff. lia.
Qed.

End RoundingBelow.

(** ** More on the fee arithmetic *)

Section FeeTable.

Lemma forallb_seqZ (f : Z -> bool) (lo n q : Z) :
  forallb f (seqZ lo n) = true -> lo <= q < lo + n -> f q = true.
Proof.
  intros H Hq. rewrite forallb_forall in H. apply H.
  apply list_elem_of_In, elem_of_seqZ. lia.
Qed.

Lemma float_same_eq (f g : spec_float) : float_same f g = true -> f = g.
Proof.
  destruct f as [s|s| |s m e], g as [s'|s'| |s' m' e']; simpl;
    try discriminate; try reflexivity.
  - intros H. apply Bool.eqb_prop in H. congruence.
  - intros H. apply Bool.eqb_prop in H. congruence.
  - intros H. apply andb_prop in H as [H He]. apply andb_prop in H as [Hs Hm].
    apply Bool.eqb_prop in Hs. apply Pos.eqb_eq in Hm. apply Z.eqb_eq in He.
    congruence.
Qed.

(** The outcome on any receiver is the outcome on the least one. *)
Lemma calculate_ib_commision_fee_of (q : Z) (w : world) :
  quantity_is w (VInt q) -> (FillEvent.calculate_ib_commision w).1 = fee_of q.
Proof.
  intros Hw. unfold fee_of.
  rewrite (calculate_ib_commision_int q w Hw).
  now rewrite (calculate_ib_commision_int q (fill_of_quantity q)).
Qed.

Lemma fee_of_compute (q : Z) : fee_of q = VFloat <$> CommissionPolicy.compute q.
Proof.
  unfold fee_of. now rewrite (calculate_ib_commision_int q (fill_of_quantity q)).
Qed.

Lemma fee_satisfies_Ok (p : spec_float -> bool) (q : Z) :
  fee_satisfies p q = true -> ∃ f, fee_of q = Ok (VFloat f) ∧ p f = true.
Proof.
  unfold fee_satisfies. destruct (fee_of q) as [[]|]; try discriminate. eauto.
Qed.

Lemma fee_le_Ok (q q' : Z) :
  fee_le q q' = true ->
  ∃ f f', fee_of q = Ok (VFloat f) ∧ fee_of q' = Ok (VFloat f')
          ∧ Float.leb f f' = true.
Proof.
  unfold fee_le. destruct (fee_of q) as [[]|]; try discriminate.
  destruct (fee_of q') as [[]|]; try discriminate. eauto.
Qed.

(** [<=] on floats is transitive. *)
Lemma leb_trans (f g h : spec_float) :
  Float.leb f g = true -> Float.leb g h = true -> Float.leb f h = true.
Proof.
  unfold Float.leb, SFleb, SFcompare.
  destruct f as [s1|s1| |s1 m1 e1], g as [s2|s2| |s2 m2 e2],
    h as [s3|s3| |s3 m3 e3];
    try destruct s1; try destruct s2; try destruct s3;
    try (intros; discriminate); try (intros; reflexivity);
    change (Pos.compare_cont Eq m1 m2) with (m1 ?= m2)%positive;
    change (Pos.compare_cont Eq m2 m3) with (m2 ?= m3)%positive;
    change (Pos.compare_cont Eq m1 m3) with (m1 ?= m3)%positive;
    destruct (Z.compare_spec e1 e2), (Z.compare_spec e2 e3),
      (Z.compare_spec e1 e3);
    try (intros; discriminate); try (intros; reflexivity); try lia;
    destruct (Pos.compare_spec m1 m2), (Pos.compare_spec m2 m3),
      (Pos.compare_spec m1 m3);
    simpl; try (intros; discriminate); try (intros; reflexivity); lia.
Qed.

Lemma low_fees_minimum :
  forallb (fee_satisfies (float_same Float.lit_1_3)) (seqZ 1 100) = true.
Proof. vm_compute. reflexivity. Qed.

Lemma middle_fees_above_minimum :
  forallb (fee_satisfies (Float.ltb Float.lit_1_3)) (seqZ 101 411) = true.
Proof. vm_compute. reflexivity. Qed.

Lemma window_fees_below_500 :
  forallb (fee_satisfies (fun f => Float.ltb f Float.lit_6_5)) (seqZ 501 312)
  = true.
Proof. vm_compute. reflexivity. Qed.

Lemma low_tier_fees_ascend :
  forallb (fun q => fee_le q q && fee_le q (q + 1)) (seqZ 0 500) = true.
Proof. vm_compute. reflexivity. Qed.

Lemma fee_le_trans (q1 q2 q3 : Z) :
  fee_le q1 q2 = true -> fee_le q2 q3 = true -> fee_le q1 q3 = true.
Proof.
  intros H12 H23.
  destruct (fee_le_Ok _ _ H12) as (f1 & f2 & E1 & E2 & L12).
  destruct (fee_le_Ok _ _ H23) as (f2' & f3 & E2' & E3 & L23).
  unfold fee_le. rewrite E1, E3. rewrite E2 in E2'. injection E2' as <-.
  eapply leb_trans; eassumption.
Qed.

Lemma fee_le_low_tier (q : Z) (n : nat) :
  0 <= q -> q + Z.of_nat n <= 500 -> fee_le q (q + Z.of_nat n) = true.
Proof.
  intros Hq. induction n as [|n IH]; intros Hn.
  - replace (q + Z.of_nat 0) with q by lia.
    destruct (Z.eq_dec q 500) as [->|Hne]; [vm_compute; reflexivity|].
    pose proof (forallb_seqZ _ 0 500 q low_tier_fees_ascend ltac:(lia)) as H.
    now apply andb_prop in H as [H _].
  - apply (fee_le_trans _ (q + Z.of_nat n)); [apply IH; lia|].
    pose proof (forallb_seqZ _ 0 500 (q + Z.of_nat n) low_tier_fees_ascend
                  ltac:(lia)) as H.
    apply andb_prop in H as [_ H].
    now replace (q + Z.of_nat (S n)) with (q + Z.of_nat n + 1) by lia.
Qed.

End FeeTable.

(** X1. The minimum fee applies up to exactly 100 shares: for an
    integer quantity that converts to a float, the commission is 1.3
    when the quantity is at most 100 and strictly greater than 1.3 when
    it is larger. *)
Theorem minimum_fee_applies_up_to_100 (q : Z) (w : world) :
  quantity_is w (VInt q) ->
  (∃ x, float_of_int q = Ok x) ->
  ∃ fee : spec_float,
    (FillEvent.calculate_ib_commision w).1 = Ok (VFloat fee)
    ∧ (q <= 100 -> fee = Float.lit_1_3)
    ∧ (100 < q -> Float.ltb Float.lit_1_3 fee = true).
Proof.
  intros Hw [x Hx]. rewrite (calculate_ib_commision_fee_of q w Hw).
  destruct (Z_le_gt_dec q 0) as [H0|H0].
  { rewrite fee_of_compute, (compute_not_positive q x H0 Hx). simpl.
    eexists. split; [reflexivity|]. split; [reflexivity|lia]. }
  destruct (Z_le_gt_dec q 100) as [H100|H100].
  { pose proof (forallb_seqZ _ 1 100 q low_fees_minimum ltac:(lia)) as H.
    destruct (fee_satisfies_Ok _ _ H) as (f & -> & Hf).
    apply float_same_eq in Hf as <-.
    eexists. split; [reflexivity|]. split; [reflexivity|lia]. }
  destruct (Z_le_gt_dec q 511) as [H511|H511].
  { pose proof (forallb_seqZ _ 101 411 q middle_fees_above_minimum ltac:(lia))
      as H.
    destruct (fee_satisfies_Ok _ _ H) as (f & -> & Hf).
    exists f. split; [reflexivity|]. split; [lia|auto]. }
  rewrite fee_of_compute. unfold CommissionPolicy.compute.
  replace (q <=? 500) with false by (symmetry; apply Z.leb_gt; lia).
  rewrite Hx. cbv [mbind result_bind fmap result_fmap].
  pose proof (upper_tier_above_minimum q ltac:(lia)) as Hlt.
  rewrite <- (float_of_int_Ok q x Hx) in Hlt.
  eexists. split; [reflexivity|]. split; [lia|].
  intros _. unfold max. now rewrite Hlt.
Qed.

Lemma minimum_fee_applies_up_to_100_witness :
  quantity_is (fill_of_quantity 100) (VInt 100)
  ∧ (∃ x, float_of_int 100 = Ok x)
  ∧ ∃ fee : spec_float,
      (FillEvent.calculate_ib_commision (fill_of_quantity 100)).1
      = Ok (VFloat fee)
      ∧ (100 <= 100 -> fee = Float.lit_1_3)
      ∧ (100 < 100 -> Float.ltb Float.lit_1_3 fee = true).
Proof.
  assert (∃ x, float_of_int 100 = Ok x) as Hx by (eexists; reflexivity).
  split; [reflexivity|]. split; [exact Hx|].
  apply (minimum_fee_applies_up_to_100 100 (fill_of_quantity 100));
    [reflexivity | exact Hx].
Defined.

(** X2. Up to 500 shares the fee never decreases with the quantity: for
    integer quantities q1 <= q2 <= 500 that convert to floats, the
    commission of q1 is at most the commission of q2. *)
Theorem commission_monotone_up_to_500 (q1 q2 : Z) (w1 w2 : world) :
  quantity_is w1 (VInt q1) -> quantity_is w2 (VInt q2) ->
  q1 <= q2 -> q2 <= 500 ->
  (∃ x, float_of_int q1 = Ok x) -> (∃ x, float_of_int q2 = Ok x) ->
  ∃ fee1 fee2 : spec_float,
    (FillEvent.calculate_ib_commision w1).1 = Ok (VFloat fee1)
    ∧ (FillEvent.calculate_ib_commision w2).1 = Ok (VFloat fee2)
    ∧ Float.leb fee1 fee2 = true.
Proof.
  intros Hw1 Hw2 H12 H2 [x1 Hx1] [x2 Hx2].
  rewrite (calculate_ib_commision_fee_of q1 w1 Hw1).
  rewrite (calculate_ib_commision_fee_of q2 w2 Hw2).
  destruct (Z_le_gt_dec q1 0) as [H0|H0].
  - rewrite (fee_of_compute q1), (compute_not_positive q1 x1 H0 Hx1).
    rewrite (fee_of_compute q2).
    destruct (compute_ge q2 x2 Hx2) as (f2 & -> & Hge).
    exists Float.lit_1_3, f2. repeat split; assumption.
  - pose proof (fee_le_low_tier q1 (Z.to_nat (q2 - q1)) ltac:(lia) ltac:(lia))
      as H.
    replace (q1 + Z.of_nat (Z.to_nat (q2 - q1))) with q2 in H by lia.
    destruct (fee_le_Ok _ _ H) as (f1 & f2 & -> & -> & Hle).
    exists f1, f2. repeat split; assumption.
Qed.

Lemma commission_monotone_up_to_500_witness :
  quantity_is (fill_of_quantity 150) (VInt 150)
  ∧ quantity_is (fill_of_quantity 400) (VInt 400)
  ∧ 150 <= 400 ∧ 400 <= 500
  ∧ ∃ fee1 fee2 : spec_float,
      (FillEvent.calculate_ib_commision (fill_of_quantity 150)).1
      = Ok (VFloat fee1)
      ∧ (FillEvent.calculate_ib_commision (fill_of_quantity 400)).1
        = Ok (VFloat fee2)
      ∧ Float.leb fee1 fee2 = true.
Proof.
  split; [reflexivity|]. split; [reflexivity|]. split; [lia|]. split; [lia|].
  apply (commission_monotone_up_to_500 150 400
           (fill_of_quantity 150) (fill_of_quantity 400));
    [reflexivity | reflexivity | lia | lia
    | eexists; reflexivity | eexists; reflexivity].
Defined.

(** X3. The drop of the rate above 500 shares makes every quantity from
    501 to 812 cheaper than 500 shares: its commission is strictly
    below the 6.5 charged for 500, and 813 is the first quantity
    charged more. *)
Theorem quantities_cheaper_than_500 (q : Z) (w : world) :
  quantity_is w (VInt q) -> 501 <= q <= 812 ->
  (∃ fee : spec_float,
     (FillEvent.calculate_ib_commision w).1 = Ok (VFloat fee)
     ∧ Float.ltb fee Float.lit_6_5 = true)
  ∧ fee_of 500 = Ok (VFloat Float.lit_6_5)
  ∧ fee_satisfies (Float.ltb Float.lit_6_5) 813 = true.
Proof.
  intros Hw Hq. rewrite (calculate_ib_commision_fee_of q w Hw).
  split; [|split; vm_compute; reflexivity].
  pose proof (forallb_seqZ _ 501 312 q window_fees_below_500 ltac:(lia)) as H.
  destruct (fee_satisfies_Ok _ _ H) as (f & -> & Hf). eauto.
Qed.

Lemma quantities_cheaper_than_500_witness :
  quantity_is (fill_of_quantity 812) (VInt 812)
  ∧ 501 <= 812 <= 812
  ∧ ∃ fee : spec_float,
      (FillEvent.calculate_ib_commision (fill_of_quantity 812)).1
      = Ok (VFloat fee)
      ∧ Float.ltb fee Float.lit_6_5 = true.
Proof.
  split; [reflexivity|]. split; [lia|].
  apply (quantities_cheaper_than_500 812 (fill_of_quantity 812));
    [reflexivity | lia].
Defined.

(** X4. On a float quantity the computation never fails and never
    returns a value below 1.3 or not a number: whatever the float,
    infinities and NaN included, the commission is a float that is at
    least 1.3, and the receiver and the output are left as they
    were. *)
Theorem commission_of_float_quantity (x : spec_float) (w : world) :
  quantity_is w (VFloat x) ->
  ∃ fee : spec_float,
    FillEvent.calculate_ib_commision w = (Ok (VFloat fee), w)
    ∧ Float.leb Float.lit_1_3 fee = true
    ∧ fee ≠ S754_nan
    ∧ (x = S754_nan -> fee = Float.lit_1_3).
Proof.
  unfold quantity_is, attr. intros Hw.
  unfold FillEvent.calculate_ib_commision. run. rewrite Hw.
  cbn [le_int]. destruct (Float.leb x (Float.of_Z 500)) eqn:Hle;
    rewrite Hw; cbn [float_mul]; eexists; (split; [reflexivity|]);
    (split; [apply max_ge|]); (split; [|intros ->; try discriminate; reflexivity]).
  - intros Hnan. pose proof (max_ge (Float.mul Float.lit_0_013 x)) as H.
    rewrite Hnan in H. discriminate.
  - intros Hnan. pose proof (max_ge (Float.mul Float.lit_0_008 x)) as H.
    rewrite Hnan in H. discriminate.
Qed.

Lemma commission_of_float_quantity_witness :
  quantity_is (World (Object CFillEvent {[ "quantity" := VFloat S754_nan ]}) "")
    (VFloat S754_nan)
  ∧ ∃ fee : spec_float,
      FillEvent.calculate_ib_commision
        (World (Object CFillEvent {[ "quantity" := VFloat S754_nan ]}) "")
      = (Ok (VFloat fee),
         World (Object CFillEvent {[ "quantity" := VFloat S754_nan ]}) "")
      ∧ Float.leb Float.lit_1_3 fee = true
      ∧ fee ≠ S754_nan
      ∧ (S754_nan = S754_nan -> fee = Float.lit_1_3).
Proof.
  split; [reflexivity|].
  apply (commission_of_float_quantity S754_nan
           (World (Object CFillEvent {[ "quantity" := VFloat S754_nan ]}) "")).
  reflexivity.
Defined.

(** X5. What [calculate_ib_commision] does on a receiver it cannot
    price: without a [quantity] attribute it raises [AttributeError],
    with a quantity that is [None] or a string it raises [TypeError],
    and in each case the receiver and the output are left as they
    were. *)
Theorem commission_of_unpriceable_receiver (w : world) :
  (attr (self w) "quantity" = None ->
   FillEvent.calculate_ib_commision w = (Raise AttributeError, w))
  ∧ (quantity_is w VNone ->
     FillEvent.calculate_ib_commision w = (Raise TypeError, w))
  ∧ (∀ s, quantity_is w (VStr s) ->
     FillEvent.calculate_ib_commision w = (Raise TypeError, w)).
Proof.
  unfold quantity_is, attr, FillEvent.calculate_ib_commision. run.
  repeat split; intros; rewrite H; reflexivity.
Qed.

Lemma commission_of_unpriceable_receiver_witness :
  attr (Object CMarketEvent {[ "type" := VStr "MARKET" ]}) "quantity" = None
  ∧ FillEvent.calculate_ib_commision
      (World (Object CMarketEvent {[ "type" := VStr "MARKET" ]}) "")
    = (Raise AttributeError,
       World (Object CMarketEvent {[ "type" := VStr "MARKET" ]}) "").
Proof.
  split; [reflexivity|].
  apply (commission_of_unpriceable_receiver
           (World (Object CMarketEvent {[ "type" := VStr "MARKET" ]}) "")).
  reflexivity.
Defined.

(** ** More on construction *)

Section Shape.

Implicit Types (args : list pyval) (kwargs : list (string * pyval))
  (l : gmap string pyval) (out : string).

(** What construction yields once the arguments are bound. *)
Lemma new_bound (c : class) args kwargs out l :
  bind_args (parameters_of c) args kwargs = Ok l ->
  new c args kwargs out
  = match init_body c l (World (Object c ∅) out) with
    | (Ok _, w) => (Ok (self w), stdout w)
    | (Raise e, w) => (Raise e, stdout w)
    end.
Proof. intros Hl. unfold new, call_init. run. now rewrite Hl. Qed.

Lemma new_unbound (c : class) args kwargs out e :
  bind_args (parameters_of c) args kwargs = Raise e ->
  new c args kwargs out = (Raise TypeError, out).
Proof.
  intros He. unfold new, call_init. run. rewrite He.
  now rewrite (bind_args_raise _ _ _ _ He).
Qed.

Lemma bind_positional_surplus (ps : params) args :
  (length ps < length args)%nat -> bind_positional ps args = Raise TypeError.
Proof.
  revert ps; induction args as [|a args IH]; intros [|[p d] ps]; simpl;
    try lia; try reflexivity.
  intros Hlen. now rewrite IH by lia.
Qed.

Lemma bind_keywords_unknown (ps : params) kwargs m (k : string) :
  k ∈ kwargs.*1 -> k ∉ ps.*1 -> bind_keywords ps kwargs m = Raise TypeError.
Proof.
  revert m; induction kwargs as [|[k' v] kwargs IH]; intros m; simpl.
  - intros Hin. now apply elem_of_nil in Hin.
  - intros Hin Hps. case_bool_decide as Hk'; [|reflexivity].
    destruct (m !! k'); [reflexivity|].
    apply elem_of_cons in Hin as [->|Hin]; [done|]. now apply IH.
Qed.


End Shape.

(** X6. A constructed event is an instance of the class that was
    called, its attributes are exactly those its initialiser assigns
    (none for [Event], [type] alone for [MarketEvent], [type] and the
    five, four or seven fields for the others), whatever the arguments
    were, and constructing it writes nothing to standard output. *)
Theorem constructed_event_shape (c : class) (args : list pyval)
    (kwargs : list (string * pyval)) (out out' : string) (o : object) :
  new c args kwargs out = (Ok o, out') ->
  obj_class o = c
  ∧ dom (obj_dict o) = (list_to_set (fields_of c) : gset string)
  ∧ out' = out.
Proof.
  destruct (bind_args (parameters_of c) args kwargs) as [l|e] eqn:Hl;
    [|rewrite (new_unbound _ _ _ _ _ Hl); discriminate].
  rewrite (new_bound _ _ _ _ _ Hl).
  destruct c;
    cbv [init_body Event.__init__ MarketEvent.__init__ SignalEvent.__init__
         OrderEvent.__init__]; run;
    try (intros [= <- <-]; split; [reflexivity|]; split; [|reflexivity];
         cbn [fields_of obj_dict]; rewrite ?dom_insert_L, dom_empty_L;
         set_solver).
  rewrite FillEvent_init_fresh.
  destruct (local l "commission"); try discriminate;
    (intros [= <- <-]; split; [reflexivity|]; split; [|reflexivity];
     cbn [fields_of self obj_dict]; rewrite ?dom_insert_L, dom_empty_L;
     set_solver).
Qed.

Lemma constructed_event_shape_witness :
  new CSignalEvent [VInt 1; VStr "GOOG"] 
    [("strength", VInt 1); ("signal_type", VStr "LONG"); ("datetime", VInt 7)]
    "log"
  = (Ok (Object CSignalEvent
           (<["strength" := VInt 1]> (<["signal_type" := VStr "LONG"]>
           (<["datetime" := VInt 7]> (<["symbol" := VStr "GOOG"]>
           (<["strategy_id" := VInt 1]> (<["type" := VStr "SIGNAL"]> ∅))))))),
     "log")
  ∧ dom (<["strength" := VInt 1]> (<["signal_type" := VStr "LONG"]>
         (<["datetime" := VInt 7]> (<["symbol" := VStr "GOOG"]>
         (<["strategy_id" := VInt 1]>
         (<["type" := VStr "SIGNAL"]> (∅ : gmap string pyval)))))))
    = (list_to_set (fields_of CSignalEvent) : gset string).
Proof.
  assert (new CSignalEvent [VInt 1; VStr "GOOG"]
            [("strength", VInt 1); ("signal_type", VStr "LONG");
             ("datetime", VInt 7)] "log"
          = (Ok (Object CSignalEvent
                   (<["strength" := VInt 1]> (<["signal_type" := VStr "LONG"]>
                   (<["datetime" := VInt 7]> (<["symbol" := VStr "GOOG"]>
                   (<["strategy_id" := VInt 1]>
                   (<["type" := VStr "SIGNAL"]> ∅))))))),
             "log")) as Hnew by reflexivity.
  split; [exact Hnew|].
  exact (proj1 (proj2 (constructed_event_shape _ _ _ _ _ _ Hnew))).
Defined.

(** X7. A [SignalEvent] holds each argument under the name of its
    parameter: however the five arguments are passed, a constructed
    event has [strategy_id], [symbol], [datetime], [signal_type] and
    [strength] equal to the values bound to those parameters and [type]
    equal to SIGNAL; given five positional arguments, construction
    succeeds and keeps them in that order. *)
Theorem signal_event_stores_its_arguments (args : list pyval)
    (kwargs : list (string * pyval)) (out : string) :
  (∀ o out', new CSignalEvent args kwargs out = (Ok o, out') ->
     ∃ l, bind_args SignalEvent.parameters args kwargs = Ok l
          ∧ attr o "type" = Some (VStr "SIGNAL")
          ∧ Forall (λ name, attr o name = Some (local l name))
              ["strategy_id"; "symbol"; "datetime"; "signal_type"; "strength"])
  ∧ (∀ strategy_id symbol datetime signal_type strength : pyval,
       ∃ o, new CSignalEvent
              [strategy_id; symbol; datetime; signal_type; strength] [] out
            = (Ok o, out)
            ∧ attr o "strategy_id" = Some strategy_id
            ∧ attr o "symbol" = Some symbol
            ∧ attr o "datetime" = Some datetime
            ∧ attr o "signal_type" = Some signal_type
            ∧ attr o "strength" = Some strength).
Proof.
  split.
  - intros o out'.
    destruct (bind_args (parameters_of CSignalEvent) args kwargs) as [l|e]
      eqn:Hl; [|rewrite (new_unbound _ _ _ _ _ Hl); discriminate].
    rewrite (new_bound _ _ _ _ _ Hl).
    cbv [init_body SignalEvent.__init__]. run. intros [= <- <-].
    exists l. split; [exact Hl|]. split; [reflexivity|].
    repeat (apply Forall_cons; split; [reflexivity|]). apply Forall_nil_2.
  - intros a b c d e. eexists. split; [reflexivity|].
    repeat split; reflexivity.
Qed.

Lemma signal_event_stores_its_arguments_witness :
  ∃ l, bind_args SignalEvent.parameters [VInt 1; VStr "GOOG"]
         [("strength", VInt 1); ("signal_type", VStr "LONG");
          ("datetime", VInt 7)]
       = Ok l
       ∧ attr (Object CSignalEvent
                 (<["strength" := VInt 1]> (<["signal_type" := VStr "LONG"]>
                 (<["datetime" := VInt 7]> (<["symbol" := VStr "GOOG"]>
                 (<["strategy_id" := VInt 1]>
                 (<["type" := VStr "SIGNAL"]> ∅)))))))
              "type"
         = Some (VStr "SIGNAL")
       ∧ Forall
           (λ name,
              attr (Object CSignalEvent
                      (<["strength" := VInt 1]>
                      (<["signal_type" := VStr "LONG"]>
                      (<["datetime" := VInt 7]> (<["symbol" := VStr "GOOG"]>
                      (<["strategy_id" := VInt 1]>
                      (<["type" := VStr "SIGNAL"]> ∅)))))))
                   name
              = Some (local l name))
           ["strategy_id"; "symbol"; "datetime"; "signal_type"; "strength"].
Proof.
  apply (proj1 (signal_event_stores_its_arguments [VInt 1; VStr "GOOG"]
                  [("strength", VInt 1); ("signal_type", VStr "LONG");
                   ("datetime", VInt 7)] "") _ "").
  reflexivity.
Defined.

(** X8. How constructing a [FillEvent] ends, for every way of passing
    the arguments: [TypeError] when they do not bind, [AttributeError]
    when the bound commission is [None], and otherwise an event that
    holds the seven bound values under the names of their parameters,
    the commission being exactly the value passed, of whatever type. *)
Theorem fill_event_construction (args : list pyval)
    (kwargs : list (string * pyval)) (out : string) :
  match bind_args FillEvent.parameters args kwargs with
  | Raise _ => new CFillEvent args kwargs out = (Raise TypeError, out)
  | Ok l =>
      match local l "commission" with
      | VNone => new CFillEvent args kwargs out = (Raise AttributeError, out)
      | commission =>
          ∃ o, new CFillEvent args kwargs out = (Ok o, out)
               ∧ attr o "type" = Some (VStr "FILL")
               ∧ attr o "commission" = Some commission
               ∧ Forall (λ name, attr o name = Some (local l name))
                   ["timeindex"; "symbol"; "exchange"; "quantity";
                    "direction"; "fill_cost"; "commission"]
      end
  end.
Proof.
  destruct (bind_args FillEvent.parameters args kwargs) as [l|e] eqn:Hl;
    [|exact (new_unbound CFillEvent _ _ _ _ Hl)].
  rewrite (new_bound CFillEvent _ _ _ _ Hl). cbv [init_body].
  rewrite FillEvent_init_fresh.
  destruct (local l "commission") eqn:Hc; [reflexivity| | |];
    (eexists; split; [reflexivity|]; split; [reflexivity|];
     split; [reflexivity|];
     repeat (apply Forall_cons; split; [try reflexivity|]);
     [rewrite Hc; reflexivity | apply Forall_nil_2]).
Qed.

(** X9. The constructors take no more arguments than their parameters:
    none for [Event] and [MarketEvent], five for [SignalEvent], four for
    [OrderEvent], seven for [FillEvent]. A call with more positional
    arguments, or with a keyword that is not a parameter, fails with
    [TypeError] and writes nothing. *)
Theorem constructors_reject_surplus_arguments (c : class) (args : list pyval)
    (kwargs : list (string * pyval)) (out : string) :
  ((length (parameters_of c) < length args)%nat ->
   new c args kwargs out = (Raise TypeError, out))
  ∧ (∀ k, k ∈ kwargs.*1 -> k ∉ (parameters_of c).*1 ->
       new c args kwargs out = (Raise TypeError, out))
  ∧ length (parameters_of c)
    = match c with
      | CEvent | CMarketEvent => 0%nat
      | CSignalEvent => 5%nat
      | COrderEvent => 4%nat
      | CFillEvent => 7%nat
      end.
Proof.
  split; [|split; [|destruct c; reflexivity]].
  - intros Hlen. apply (new_unbound c args kwargs out TypeError).
    unfold bind_args. now rewrite bind_positional_surplus.
  - intros k Hk Hps.
    destruct (bind_args (parameters_of c) args kwargs) as [l|e] eqn:Hl;
      [|exact (new_unbound c _ _ _ _ Hl)].
    exfalso. unfold bind_args in Hl.
    destruct (bind_positional (parameters_of c) args) as [m|]; [|discriminate].
    cbn in Hl. rewrite (bind_keywords_unknown _ _ m k Hk Hps) in Hl.
    discriminate.
Qed.

Lemma constructors_reject_surplus_arguments_witness :
  (length (parameters_of CMarketEvent) < length [VInt 1])%nat
  ∧ new CMarketEvent [VInt 1] [] "" = (Raise TypeError, "").
Proof.
  assert (length (parameters_of CMarketEvent) < length [VInt 1])%nat as Hlen
    by (simpl; lia).
  split; [exact Hlen|].
  exact (proj1 (constructors_reject_surplus_arguments CMarketEvent
                  [VInt 1] [] "") Hlen).
Defined.

(** ** More on the methods *)

Section Methods.

Context `{!FloatRepr}.

Lemma append_assoc (a b c : string) : (a +:+ b) +:+ c = a +:+ (b +:+ c).
Proof.
  induction a as [|x a IH]; [reflexivity|].
  change (String x ((a +:+ b) +:+ c) = String x (a +:+ (b +:+ c))).
  now rewrite IH.
Qed.

(** A method call that the class resolves runs that method. *)
Lemma perform_invoke_print_order (w : world) :
  obj_class (self w) = COrderEvent ->
  attr (self w) "print_order" = None ->
  perform (Invoke "print_order") w = OrderEvent.print_order w.
Proof.
  unfold attr. intros Hc Hn. unfold perform, call_method. now rewrite Hc, Hn.
Qed.


End Methods.



(** X11. [print_order] prints all or nothing: on a receiver that lacks
    any of [symbol], [order_type], [quantity] or [direction] it raises
    [AttributeError] and leaves both standard output and the receiver
    as they were. *)
Theorem print_order_needs_all_fields `{!FloatRepr} (w : world) (name : string) :
  name ∈ ["symbol"; "order_type"; "quantity"; "direction"] ->
  attr (self w) name = None ->
  OrderEvent.print_order w = (Raise AttributeError, w).
Proof.
  unfold attr. intros Hin Hn. unfold OrderEvent.print_order. run.
  destruct (obj_dict (self w) !! "symbol") eqn:Hs; [|reflexivity].
  destruct (obj_dict (self w) !! "order_type") eqn:Ht; [|reflexivity].
  destruct (obj_dict (self w) !! "quantity") eqn:Hq; [|reflexivity].
  destruct (obj_dict (self w) !! "direction") eqn:Hd; [|reflexivity].
  exfalso.
  repeat (apply elem_of_cons in Hin as [->|Hin]; [congruence|]).
  now apply elem_of_nil in Hin.
Qed.

Lemma print_order_needs_all_fields_witness :
  "quantity" ∈ ["symbol"; "order_type"; "quantity"; "direction"]
  ∧ attr (Object CSignalEvent
            {[ "symbol" := VStr "GOOG"; "order_type" := VStr "MKT" ]})
         "quantity" = None
  ∧ @OrderEvent.print_order no_float_repr
      (World (Object CSignalEvent
                {[ "symbol" := VStr "GOOG"; "order_type" := VStr "MKT" ]})
             "log")
    = (Raise AttributeError,
       World (Object CSignalEvent
                {[ "symbol" := VStr "GOOG"; "order_type" := VStr "MKT" ]})
             "log").
Proof.
  assert ("quantity" ∈ ["symbol"; "order_type"; "quantity"; "direction"])
    as Hin by (do 2 right; left).
  split; [exact Hin|]. split; [reflexivity|].
  apply (@print_order_needs_all_fields no_float_repr _ "quantity" Hin).
  reflexivity.
Defined.

(** X12. Calls of [print_order] add up: [n] calls in a row on a
    constructed [OrderEvent] append [n] copies of its line to what
    standard output already held, which they leave in place, and the
    event is the same afterwards. *)
Theorem print_order_repeated `{!FloatRepr} (n : nat)
    (args : list pyval) (kwargs : list (string * pyval))
    (out0 out1 out : string) (o : object) :
  new COrderEvent args kwargs out0 = (Ok o, out1) ->
  ∃ symbol order_type quantity direction : pyval,
    o = order_instance symbol order_type quantity direction
    ∧ perform_all (print_orders n) (World o out)
      = World o
          (out +:+ copies n (order_text symbol order_type quantity direction
                             +:+ newline)).
Proof.
  intros Hnew. destruct (new_OrderEvent_inv _ _ _ _ _ Hnew) as (_ & l & _ & ->).
  do 4 eexists. split; [reflexivity|].
  destruct (order_instance_attrs (local l "symbol") (local l "order_type")
              (local l "quantity") (local l "direction"))
    as (_ & Hs & Ht & Hq & Hd).
  revert out. induction n as [|n IH]; intros out.
  - simpl. now rewrite append_empty_r.
  - unfold print_orders. cbn [replicate perform_all]. fold (print_orders n).
    rewrite perform_invoke_print_order by reflexivity.
    rewrite (print_order_spec (World _ out) _ _ _ _ Hs Ht Hq Hd).
    cbn [snd self stdout]. rewrite IH. cbn [copies].
    now rewrite append_assoc.
Qed.

Lemma print_order_repeated_witness :
  new COrderEvent [VStr "GOOG"; VStr "MKT"; VInt 100; VStr "BUY"] [] ""
  = (Ok (order_instance (VStr "GOOG") (VStr "MKT") (VInt 100) (VStr "BUY")), "")
  ∧ ∃ symbol order_type quantity direction : pyval,
      order_instance (VStr "GOOG") (VStr "MKT") (VInt 100) (VStr "BUY")
      = order_instance symbol order_type quantity direction
      ∧ @perform_all no_float_repr (print_orders 2)
          (World (order_instance (VStr "GOOG") (VStr "MKT") (VInt 100)
                    (VStr "BUY")) "log: ")
        = World (order_instance (VStr "GOOG") (VStr "MKT") (VInt 100)
                   (VStr "BUY"))
            ("log: "
             +:+ copies 2
                   (@order_text no_float_repr symbol order_type quantity
                      direction
                    +:+ newline)).
Proof.
  split; [reflexivity|].
  apply (@print_order_repeated no_float_repr 2
           [VStr "GOOG"; VStr "MKT"; VInt 100; VStr "BUY"] [] "" "" "log: ").
  reflexivity.
Defined.


